(** * Personal-AI-Legal-Advocate: the request-gating middleware and the
      risk-assessment route, embedded and verified.

    Sources embedded here:
    - the auth middleware file ([authenticateToken], [checkResourceOwnership],
      [requireSubscription], [userRateLimit]);
    - [routes/resources.js], the [riskFactors] table and the
      [POST /risk-assessment] handler;
    - the other gates of the auth middleware ([optionalAuth],
      [requireAdmin]) and the other handlers of [routes/resources.js]
      (search, categories, recommendations, the assessment template);
    - the auth routes' login and password change, with
      [comparePassword] of the user model.

    Part I holds the embedding (one module per component), Part II the
    properties.  JavaScript numbers that carry scores are IEEE binary64
    values ([PrimFloat]); millisecond timestamps and small ordinals are
    integers well inside the exactly-representable range and are kept in [Z]. *)

From Stdlib Require Import ZArith List String Ascii Bool Lia DecimalString.
From Stdlib Require Import Sorting.Sorted.
From Stdlib Require Import PrimFloat FloatOps SpecFloat Uint63.
From stdpp Require Import gmap strings.
Import ListNotations.

Set Warnings "-inexact-float".
Open Scope string_scope.

(* ===================================================================== *)
(** * Part I. The embedding                                               *)
(* ===================================================================== *)

(** ** The JavaScript platform the middleware runs on *)
Module Js.

(** Property names every ordinary object inherits from [Object.prototype]
    (ECMA-262, 20.1.3 and Annex B.2.2).  An object literal such as
    [{ free: 1, premium: 2, enterprise: 3 }] answers a read of any of these
    names with the inherited built-in, not with [undefined]. *)
Definition objectPrototypeNames : list string :=
  [ "constructor"; "hasOwnProperty"; "isPrototypeOf"; "propertyIsEnumerable";
    "toLocaleString"; "toString"; "valueOf"; "__proto__";
    "__defineGetter__"; "__defineSetter__"; "__lookupGetter__";
    "__lookupSetter__" ].

Definition mem (s : string) (l : list string) : bool :=
  existsb (String.eqb s) l.

Definition inherited (name : string) : bool := mem name objectPrototypeNames.

(** Own-property lookup in an object written as its list of entries. *)
Fixpoint assoc {A : Type} (k : string) (o : list (string * A)) : option A :=
  match o with
  | [] => None
  | (k', v) :: rest => if String.eqb k k' then Some v else assoc k rest
  end.

(** The name a built-in function carries: [Object.prototype.constructor] is
    the function [Object], every other inherited method is named after its
    property. *)
Definition builtinName (prop : string) : string :=
  if String.eqb prop "constructor" then "Object" else prop.

(** What [toString()] (and so [ToPrimitive]) gives for an inherited
    built-in: the prototype object itself for [__proto__], the native
    function text otherwise (as Node prints it). *)
Definition builtinText (prop : string) : string :=
  if String.eqb prop "__proto__" then "[object Object]"
  else "function " ++ builtinName prop ++ "() { [native code] }".

(** [Number.prototype.toString] on an integer-valued number (plain decimal
    digits, a leading minus sign for negatives). *)
Definition decimal (n : Z) : string := NilZero.string_of_int (Z.to_int n).

(** [s.split(' ')]: the pieces between single spaces, empty pieces kept. *)
Fixpoint split_space (s : string) : list string :=
  match s with
  | EmptyString => [ "" ]
  | String c rest =>
      if Ascii.eqb c " "%char then "" :: split_space rest
      else match split_space rest with
           | [] => [ String c "" ]
           | w :: ws => String c w :: ws
           end
  end.

(** A value placed in a JSON response body. [FNaN] is a number that is not
    one (serialised as [null]). *)
Inductive field : Type :=
| FStr (s : string)
| FNum (n : Z)
| FNaN.

(** [res.status(status).json(body)]. *)
Record response : Type := mkResponse {
  status : Z;
  body : list (string * field)
}.

(** What a gate does with a request: call [next()], answer it, or let an
    exception escape. *)
Inductive outcome : Type :=
| Next
| Respond (r : response)
| Throw (name : string).

Definition code_of (r : response) : option field := assoc "code" (body r).

End Js.

(** ** Identity and session verification: [authenticateToken] *)
Module Auth.
Import Js.

(** The user document the store returns (password already projected out). *)
Record user : Type := mkUser {
  _id : string;
  isActive : bool;
  role : string;
  plan : string
}.

(** [jwt.verify(token, secret)]: the decoded payload, whose [userId] may be
    missing, or an exception known by its [name]. *)
Inductive verified : Type :=
| Decoded (userId : option string)
| VerifyThrows (name : string).

(** [await User.findById(id).select('-password')]. *)
Inductive lookup : Type :=
| Found (u : user)
| NotFound
| LookupThrows (name : string).

Inductive auth_outcome : Type :=
| Attached (u : user)          (* req.user = user; next() *)
| Rejected (r : response).

(** [authHeader && authHeader.split(' ')[1]], kept only when truthy. *)
Definition bearerToken (authHeader : option string) : option string :=
  match authHeader with
  | None => None
  | Some "" => None
  | Some h =>
      match nth_error (split_space h) 1 with
      | Some "" => None
      | Some t => Some t
      | None => None
      end
  end.

Definition reject (st : Z) (msg code : string) : auth_outcome :=
  Rejected (mkResponse st [ ("message", FStr msg); ("code", FStr code) ]).

(** The [catch] block. *)
Definition onError (name : string) : auth_outcome :=
  if String.eqb name "TokenExpiredError" then
    reject 401 "Token expired" "TOKEN_EXPIRED"
  else if String.eqb name "JsonWebTokenError" then
    reject 401 "Invalid token" "INVALID_TOKEN"
  else
    reject 500 "Token verification failed" "TOKEN_VERIFICATION_FAILED".

Section Collaborators.
Variable jwtVerify : string -> verified.
Variable findById : option string -> lookup.

Definition authenticateToken (authHeader : option string) : auth_outcome :=
  match bearerToken authHeader with
  | None => reject 401 "Access token required" "TOKEN_REQUIRED"
  | Some token =>
      match jwtVerify token with
      | VerifyThrows e => onError e
      | Decoded uid =>
          match findById uid with
          | LookupThrows e => onError e
          | NotFound =>
              reject 401 "Invalid token or user not found" "INVALID_TOKEN"
          | Found u =>
              if isActive u then Attached u
              else reject 401 "Invalid token or user not found" "INVALID_TOKEN"
          end
      end
  end.
End Collaborators.

Definition code (o : auth_outcome) : option string :=
  match o with
  | Attached _ => None
  | Rejected r => match code_of r with Some (FStr c) => Some c | _ => None end
  end.

Definition http_status (o : auth_outcome) : option Z :=
  match o with
  | Attached _ => None
  | Rejected r => Some (status r)
  end.

End Auth.

(** ** Ownership gate: [checkResourceOwnership] *)
Module Ownership.
Import Js.

(** A number that is a safe integer, [|n| <= 2^53 - 1]: the integers a
    JavaScript number holds exactly, each printed by
    [Number.prototype.toString] with all its decimal digits. *)
Record safeInteger : Type := mkSafeInteger {
  integer : Z;
  integer_safe : (Z.abs integer <=? 9007199254740991)%Z = true
}.

(** The values an id-bearing property can hold. *)
Inductive idval : Type :=
| IdUndefined
| IdNull
| IdNum (n : safeInteger)
| IdStr (s : string)
| IdObjectId (hex : string)  (* a store id; toString() is its hex text *)
| IdBuiltin (prop : string)  (* inherited from Object.prototype *)
| IdOther (text : option string).
    (* any other value: a boolean, a number that is no safe integer (a
       fraction, an integer from 2^53 on, NaN, an infinity), an array, an
       object; [text] is what its toString() returns, [None] when the
       call throws a TypeError because [toString] is no function there *)

(** An object as its own properties. *)
Definition object : Type := list (string * idval).

(** [resource[resourceField]]. *)
Definition get (o : object) (f : string) : idval :=
  match assoc f o with
  | Some v => v
  | None => if inherited f then IdBuiltin f else IdUndefined
  end.

(** [v.toString()]; [None] is the [TypeError] raised on [undefined] and
    [null]. *)
Definition toString (v : idval) : option string :=
  match v with
  | IdUndefined | IdNull => None
  | IdNum n => Some (decimal (integer n))
  | IdStr s => Some s
  | IdObjectId h => Some h
  | IdBuiltin p => Some (builtinText p)
  | IdOther text => text
  end.

Record request : Type := mkRequest {
  req_resource : option object;   (* req.resource, when truthy *)
  req_body : option object;       (* req.body, when truthy *)
  req_user_id : option idval      (* req.user._id, when req.user is set *)
}.

(** [req.resource || req.body]. *)
Definition resource_of (req : request) : option object :=
  match req_resource req with
  | Some r => Some r
  | None => req_body req
  end.

Definition checkResourceOwnership (resourceField : string) (req : request)
  : outcome :=
  match resource_of req with
  | None =>
      Respond (mkResponse 400 [ ("message", FStr "Resource not found");
                                ("code", FStr "RESOURCE_NOT_FOUND") ])
  | Some resource =>
      let resourceUserId := get resource resourceField in
      match req_user_id req with
      | None => Throw "TypeError"
      | Some currentUserId =>
          match toString resourceUserId with
          | None => Throw "TypeError"
          | Some a =>
              match toString currentUserId with
              | None => Throw "TypeError"
              | Some b =>
                  if String.eqb a b then Next
                  else Respond (mkResponse 403
                    [ ("message",
                       FStr "Access denied. You can only access your own resources.");
                      ("code", FStr "ACCESS_DENIED") ])
              end
          end
      end
  end.

(** The default parameter: [resourceField = 'userId']. *)
Definition defaultField : string := "userId".

End Ownership.

(** ** Subscription gate: [requireSubscription] *)
Module Subscription.
Import Js.

(** [const subscriptionLevels = { free: 1, premium: 2, enterprise: 3 }]. *)
Definition subscriptionLevels : list (string * Z) :=
  [ ("free", 1%Z); ("premium", 2%Z); ("enterprise", 3%Z) ].

(** The value of [subscriptionLevels[plan] || 1]: a number, or a built-in
    reached through the prototype (always truthy, so [|| 1] keeps it). *)
Inductive level : Type :=
| LNum (n : Z)
| LBuiltin (prop : string).

Definition levelOf (plan : string) : level :=
  match assoc plan subscriptionLevels with
  | Some n => if Z.eqb n 0 then LNum 1 else LNum n
  | None => if inherited plan then LBuiltin plan else LNum 1
  end.

(** [a < b] (abstract relational comparison): numbers compare as numbers;
    an object against a number becomes [NaN] and the test is false; two
    objects compare by their primitive strings. *)
Definition lessThan (a b : level) : bool :=
  match a, b with
  | LNum x, LNum y => Z.ltb x y
  | LNum _, LBuiltin _ => false
  | LBuiltin _, LNum _ => false
  | LBuiltin p, LBuiltin q => String.ltb (builtinText p) (builtinText q)
  end.

Definition requireSubscription (requiredLevel : string) (userPlan : string)
  : outcome :=
  let userLevel := levelOf userPlan in
  let requiredLevelValue := levelOf requiredLevel in
  if lessThan userLevel requiredLevelValue then
    Respond (mkResponse 403
      [ ("message", FStr ("This feature requires " ++ requiredLevel ++ " subscription"));
        ("code", FStr "SUBSCRIPTION_REQUIRED");
        ("requiredLevel", FStr requiredLevel);
        ("currentLevel", FStr userPlan) ])
  else Next.

(** The ordinal the specification assigns to a plan name: the table, and 1
    for every name outside it. *)
Definition ordinal (plan : string) : Z :=
  match assoc plan subscriptionLevels with
  | Some n => n
  | None => 1%Z
  end.

End Subscription.

(** ** Per-user rate limit: [userRateLimit] *)
Module RateLimit.
Import Js.

(** [Math.ceil(a / b)] for integers [a] and a positive integer [b]; the
    binary64 quotient of two such numbers never crosses an integer while
    [a] stays below 2^53 in magnitude, so the ceiling is the exact one. *)
Definition ceil_div (a b : Z) : Z := (- ((- a) / b))%Z.

(** The reply's [retryAfter]: computed from [recentRequests[0]], which is
    [undefined] (and the result [NaN]) when nothing was retained. *)
Definition retryAfter (recentRequests : list Z) (windowMs now : Z) : field :=
  match recentRequests with
  | [] => FNaN
  | first :: _ => FNum (ceil_div (first + windowMs - now) 1000)
  end.

Definition tooMany (recentRequests : list Z) (windowMs now : Z) : response :=
  mkResponse 429
    [ ("message", FStr "Too many requests. Please try again later.");
      ("code", FStr "RATE_LIMIT_EXCEEDED");
      ("retryAfter", retryAfter recentRequests windowMs now) ].

(** [userHistory.filter(timestamp => timestamp > windowStart)]. *)
Definition recent (windowStart : Z) (userHistory : list Z) : list Z :=
  List.filter (fun timestamp => Z.ltb windowStart timestamp) userHistory.

(** One call of the middleware returned by [userRateLimit(maxRequests,
    windowMs)]: [userRequests] is the [Map] captured by the closure, [now]
    the reading of [Date.now()].  The result pairs what happens to the
    request with the map afterwards. *)
Definition userRateLimit (maxRequests windowMs : Z)
    (userRequests : gmap string (list Z)) (userId : string) (now : Z)
  : outcome * gmap string (list Z) :=
  let windowStart := (now - windowMs)%Z in
  let userHistory := default [] (userRequests !! userId) in
  let recentRequests := recent windowStart userHistory in
  if Z.leb maxRequests (Z.of_nat (length recentRequests)) then
    (Respond (tooMany recentRequests windowMs now), userRequests)
  else
    (Next, <[ userId := (recentRequests ++ [ now ])%list ]> userRequests).

(** The defaults: [maxRequests = 100], [windowMs = 15 * 60 * 1000]. *)
Definition defaultMaxRequests : Z := 100.
Definition defaultWindowMs : Z := 15 * 60 * 1000.

(** A user's requests arriving one after the other at the given clock
    readings. *)
Fixpoint serve (maxRequests windowMs : Z)
    (userRequests : gmap string (list Z)) (userId : string) (clock : list Z)
  : list outcome * gmap string (list Z) :=
  match clock with
  | [] => ([], userRequests)
  | now :: later =>
      let '(o, m) := userRateLimit maxRequests windowMs userRequests userId now in
      let '(os, m') := serve maxRequests windowMs m userId later in
      (o :: os, m')
  end.

(** The pruning rule as the specification words it: timestamps older than
    [now - windowDuration] are discarded, so one that is exactly
    [windowDuration] old is still counted. *)
Definition recent_as_specified (windowStart : Z) (userHistory : list Z)
  : list Z :=
  List.filter (fun timestamp => negb (Z.ltb timestamp windowStart)) userHistory.

(** The gate that rule would give, everything else as in the source. *)
Definition rateLimit_as_specified (maxRequests windowMs : Z)
    (userRequests : gmap string (list Z)) (userId : string) (now : Z)
  : outcome * gmap string (list Z) :=
  let windowStart := (now - windowMs)%Z in
  let userHistory := default [] (userRequests !! userId) in
  let recentRequests := recent_as_specified windowStart userHistory in
  if Z.leb maxRequests (Z.of_nat (length recentRequests)) then
    (Respond (tooMany recentRequests windowMs now), userRequests)
  else
    (Next, <[ userId := (recentRequests ++ [ now ])%list ]> userRequests).

End RateLimit.

(** ** Risk scoring: the [riskFactors] table and [POST /risk-assessment] *)
Module Risk.
Import Js.

Record factor : Type := mkFactor {
  score : float;
  description : string
}.

(** [const riskFactors = { ... }], as written in [routes/resources.js]. *)
Definition riskFactors : list (string * list (string * factor)) :=
  [ ("case_complexity",
      [ ("low", mkFactor 0.2 "Straightforward case with clear precedents");
        ("medium", mkFactor 0.5 "Moderate complexity with some challenging aspects");
        ("high", mkFactor 0.8 "Complex case with multiple legal issues") ]);
    ("evidence_strength",
      [ ("strong", mkFactor 0.1 "Strong evidence supporting your position");
        ("moderate", mkFactor 0.4 "Adequate evidence with some gaps");
        ("weak", mkFactor 0.7 "Limited or weak evidence") ]);
    ("opponent_resources",
      [ ("limited", mkFactor 0.2 "Opponent has limited legal resources");
        ("moderate", mkFactor 0.4 "Opponent has adequate legal representation");
        ("extensive", mkFactor 0.7 "Opponent has extensive legal resources") ]);
    ("time_constraints",
      [ ("adequate", mkFactor 0.1 "Sufficient time to prepare case");
        ("tight", mkFactor 0.4 "Limited time for case preparation");
        ("urgent", mkFactor 0.8 "Very tight deadlines and time pressure") ]);
    ("financial_impact",
      [ ("low", mkFactor 0.2 "Low financial stakes");
        ("medium", mkFactor 0.5 "Moderate financial implications");
        ("high", mkFactor 0.8 "High financial stakes involved") ]) ].

(** What a property read can come to in a truthiness test. *)
Inductive truth : Type := Truthy | Falsy | Raises.

(** What [riskFactors[factorKey] && riskFactors[factorKey][label]] finds. *)
Inductive probe : Type :=
| Entry (f : factor)  (* a leaf of the table *)
| Foreign             (* truthy, but no leaf: it has no score, no description *)
| Skipped             (* the test is falsy *)
| Raised.             (* a property read threw *)

(** The integer nearest to a finite number that has fractional bits, a tie
    going towards plus infinity; [None] for the numbers [Math.round] returns
    as they are ([NaN], infinities, zeros, and floats of magnitude [2^52] or
    more, which are integers already). *)
Definition nearestInteger (x : float) : option Z :=
  match Prim2SF x with
  | S754_finite s m e =>
      if (0 <=? e)%Z then None
      else
        let d := (2 ^ (- e))%Z in
        let twice := (if s then - (2 * Z.pos m) else 2 * Z.pos m)%Z in
        Some ((twice + d) / (2 * d))%Z
  | _ => None
  end.

(** [Math.round]; a result of zero keeps the sign of its argument. *)
Definition Math_round (x : float) : float :=
  match nearestInteger x with
  | None => x
  | Some r =>
      if (r =? 0)%Z then (if PrimFloat.ltb x 0 then (-0)%float else 0%float)
      else if (r <? 0)%Z then PrimFloat.opp (of_uint63 (of_Z (- r)))
      else of_uint63 (of_Z r)
  end.

(** One line of the per-factor breakdown:
    [{ value, score: factor.score, description: factor.description }];
    [None] stands for [undefined]. *)
Record detail : Type := mkDetail {
  value : string;
  detail_score : option float;
  detail_description : option string
}.

Fixpoint upsert (k : string) (d : detail) (ds : list (string * detail))
  : list (string * detail) :=
  match ds with
  | [] => [ (k, d) ]
  | (k', d') :: rest =>
      if String.eqb k' k then (k', d) :: rest else (k', d') :: upsert k d rest
  end.

(** [assessmentDetails[factorKey] = d].  Assigning to [__proto__] swaps the
    prototype and adds no property of its own. *)
Definition setDetail (k : string) (d : detail) (ds : list (string * detail))
  : list (string * detail) :=
  if String.eqb k "__proto__" then ds else upsert k d ds.

(** The loop's variables: [totalRiskScore], [factorCount],
    [assessmentDetails]. *)
Record tally : Type := mkTally {
  totalRiskScore : float;
  factorCount : nat;
  assessmentDetails : list (string * detail)
}.

Definition count_as_number (n : nat) : float := of_uint63 (of_Z (Z.of_nat n)).

(** [{ id, title, type, status }] of the case the request names. *)
Record caseInfo : Type := mkCaseInfo {
  case_id : string;
  case_title : string;
  case_type : string;
  case_status : string
}.

Record assessment : Type := mkAssessment {
  id : string;
  userId : string;
  caseId : option string;
  assessment_caseInfo : option caseInfo;
  riskScore : float;
  riskLevel : string;
  riskColor : string;
  factors : list (string * detail);
  additionalFactors : list string;
  assessment_description : option string;
  recommendations : list string;
  createdAt : Z
}.

(** The handler's reply: the assessment, or the [catch] block's 500. *)
Inductive reply : Type :=
| Completed (a : assessment)
| Failed.

(** The request as the handler sees it once validation and the optional
    case lookup are done: [req_case] is the [caseId] sent together with the
    case found for it ([None] when no [caseId] was sent; a [caseId] that
    names no case of the user is answered 404 before any scoring);
    [req_factors] lists the entries of [req.body.factors] in [Object.keys]
    order, labels being strings. *)
Record request : Type := mkRequest {
  req_userId : string;
  req_case : option (string * caseInfo);
  req_factors : list (string * string);
  req_additionalFactors : list string;
  req_description : option string
}.

Section Engine.
(** [builtinOwn b l]: the truthiness of property [l] (a name outside
    [Object.prototype]) read on the built-in function found at
    [riskFactors[b]], that is, the function's own properties and those of
    [Function.prototype].  Which names exist there depends on the engine
    and its version, so the embedding takes it as given. *)
Variable builtinOwn : string -> string -> truth.

Definition probe_of (t : truth) : probe :=
  match t with
  | Truthy => Foreign
  | Falsy => Skipped
  | Raises => Raised
  end.

Definition lookup (factorKey label : string) : probe :=
  match assoc factorKey riskFactors with
  | Some row =>
      match assoc label row with
      | Some f => Entry f
      | None => if inherited label then Foreign else Skipped
      end
  | None =>
      if inherited factorKey then
        if String.eqb factorKey "__proto__" then
          (* Object.prototype itself; its own __proto__ is null *)
          if inherited label && negb (String.eqb label "__proto__")
          then Foreign else Skipped
        else if inherited label then Foreign
        else probe_of (builtinOwn factorKey label)
      else Skipped
  end.

(** The body of [Object.keys(factors).forEach(factorKey => ...)];
    [None] when a read throws. *)
Definition visit (t : tally) (entry : string * string) : option tally :=
  let '(factorKey, label) := entry in
  match lookup factorKey label with
  | Entry f =>
      Some (mkTally (totalRiskScore t + score f)%float
                    (S (factorCount t))
                    (setDetail factorKey
                       (mkDetail label (Some (score f)) (Some (description f)))
                       (assessmentDetails t)))
  | Foreign =>
      Some (mkTally (totalRiskScore t + nan)%float
                    (S (factorCount t))
                    (setDetail factorKey (mkDetail label None None)
                       (assessmentDetails t)))
  | Skipped => Some t
  | Raised => None
  end.

Fixpoint forEach (t : tally) (entries : list (string * string))
  : option tally :=
  match entries with
  | [] => Some t
  | e :: rest =>
      match visit t e with
      | Some t' => forEach t' rest
      | None => None
      end
  end.

Definition averageRiskScore (t : tally) : float :=
  match factorCount t with
  | O => 0%float
  | S _ => (totalRiskScore t / count_as_number (factorCount t))%float
  end.

Definition levelOf (average : float) : string * string :=
  if PrimFloat.leb 0.7 average then ("high", "red")
  else if PrimFloat.leb 0.4 average then ("medium", "yellow")
  else ("low", "green").

(** [factors.<key> === '<label>']. *)
Definition factorIs (fs : list (string * string)) (key label : string) : bool :=
  match assoc key fs with
  | Some v => String.eqb v label
  | None => false
  end.

Definition escalation : list string :=
  [ "Consider seeking experienced legal counsel";
    "Develop a comprehensive case strategy";
    "Allocate additional resources for case preparation" ].
Definition evidenceGathering : list string :=
  [ "Focus on gathering additional evidence";
    "Consider expert witnesses or testimony" ].
Definition deadlineManagement : list string :=
  [ "Prioritize critical deadlines";
    "Consider requesting extensions where possible" ].
Definition preparation : list string :=
  [ "Prepare for well-funded opposition";
    "Focus on strong legal arguments and precedents" ].

Definition recommend (average : float) (fs : list (string * string))
  : list string :=
  ((if PrimFloat.leb 0.6 average then escalation else [])
   ++ (if factorIs fs "evidence_strength" "weak" then evidenceGathering else [])
   ++ (if factorIs fs "time_constraints" "urgent" then deadlineManagement else [])
   ++ (if factorIs fs "opponent_resources" "extensive" then preparation else []))%list.

(** The handler from "Calculate risk score" on.  [clockId] and
    [clockCreated] are the two readings of the clock, [new
    Date().getTime()] for [id] and [new Date()] for [createdAt]. *)
Definition assess (clockId clockCreated : Z) (req : request) : reply :=
  match forEach (mkTally 0%float 0 []) (req_factors req) with
  | None => Failed
  | Some t =>
      let average := averageRiskScore t in
      let '(level, color) := levelOf average in
      Completed
        (mkAssessment (decimal clockId) (req_userId req)
           (option_map fst (req_case req)) (option_map snd (req_case req))
           (Math_round (average * 100) / 100)%float
           level color (assessmentDetails t)
           (req_additionalFactors req) (req_description req)
           (recommend average (req_factors req))
           clockCreated)
  end.
End Engine.

(** The scoring part of an assessment: everything but the two fields that
    copy the clock. *)
Definition scoring (a : assessment)
  : string * option string * option caseInfo * float * string * string
    * list (string * detail) * list string * option string * list string :=
  (userId a, caseId a, assessment_caseInfo a, riskScore a, riskLevel a,
   riskColor a, factors a, additionalFactors a, assessment_description a,
   recommendations a).

(** The table's weights as exact tenths, for the arithmetic the
    specification speaks of. *)
Definition tenths : list (string * list (string * Z)) :=
  [ ("case_complexity", [ ("low", 2); ("medium", 5); ("high", 8) ]%Z);
    ("evidence_strength", [ ("strong", 1); ("moderate", 4); ("weak", 7) ]%Z);
    ("opponent_resources", [ ("limited", 2); ("moderate", 4); ("extensive", 7) ]%Z);
    ("time_constraints", [ ("adequate", 1); ("tight", 4); ("urgent", 8) ]%Z);
    ("financial_impact", [ ("low", 2); ("medium", 5); ("high", 8) ]%Z) ].

Definition weight (entry : string * string) : option Z :=
  match assoc (fst entry) tenths with
  | Some row => assoc (snd entry) row
  | None => None
  end.

(** Sum (in tenths) and number of the recognised (key, label) pairs. *)
Fixpoint recognised (entries : list (string * string)) : Z * Z :=
  match entries with
  | [] => (0, 0)%Z
  | e :: rest =>
      let '(s, n) := recognised rest in
      match weight e with
      | Some w => (w + s, 1 + n)%Z
      | None => (s, n)
      end
  end.

(** The level the specification derives from the exact mean
    [s / (10 n)]: high from 0.7, medium from 0.4, low below (meant for
    mappings with at least one recognised pair, [n > 0]). *)
Definition level_as_specified (entries : list (string * string)) : string :=
  let '(s, n) := recognised entries in
  if (7 * n <=? s)%Z then "high"
  else if (4 * n <=? s)%Z then "medium"
  else "low".

End Risk.

(** ** The remaining gates of the auth middleware: [optionalAuth], [requireAdmin] *)
Module Gates.
Import Js Auth.

Section Collaborators.
Variable jwtVerify : string -> verified.
Variable findById : option string -> lookup.

(** [optionalAuth]: what [req.user] is when [next()] is called; every path
    ends in [next()], the [catch] block included. *)
Definition optionalAuth (authHeader : option string) : option user :=
  match bearerToken authHeader with
  | None => None
  | Some token =>
      match jwtVerify token with
      | VerifyThrows _ => None
      | Decoded uid =>
          match findById uid with
          | Found u => if isActive u then Some u else None
          | NotFound => None
          | LookupThrows _ => None
          end
      end
  end.
End Collaborators.

(** [requireAdmin], given [req.user] ([None] when no middleware set it:
    reading [req.user.role] then throws). *)
Definition requireAdmin (reqUser : option user) : outcome :=
  match reqUser with
  | None => Throw "TypeError"
  | Some u =>
      if negb (String.eqb (role u) "admin") then
        Respond (mkResponse 403 [ ("message", FStr "Admin access required");
                                  ("code", FStr "ADMIN_REQUIRED") ])
      else Next
  end.

(** Where a request ends up in a chain of middleware. *)
Inductive served : Type :=
| Reached (u : option user)   (* the handler runs, with this [req.user] *)
| Answered (r : response)
| Crashed (name : string).

Definition after (o : outcome) (reqUser : option user) : served :=
  match o with
  | Next => Reached reqUser
  | Respond r => Answered r
  | Throw e => Crashed e
  end.

Section Chains.
Variable jwtVerify : string -> verified.
Variable findById : option string -> lookup.

(** A route declared as [authenticateToken, requireAdmin, handler]. *)
Definition adminRoute (authHeader : option string) : served :=
  match authenticateToken jwtVerify findById authHeader with
  | Rejected r => Answered r
  | Attached u => after (requireAdmin (Some u)) (Some u)
  end.
End Chains.

End Gates.

(** ** The rate limiter under traffic from several users *)
Module Traffic.
Import Js RateLimit.

(** Requests of any users, in arrival order, each with its [req.user._id]
    and its reading of [Date.now()], served by one middleware instance. *)
Fixpoint serveAll (maxRequests windowMs : Z)
    (userRequests : gmap string (list Z)) (requests : list (string * Z))
  : list outcome * gmap string (list Z) :=
  match requests with
  | [] => ([], userRequests)
  | (userId, now) :: later =>
      let '(o, m) := userRateLimit maxRequests windowMs userRequests userId now in
      let '(os, m') := serveAll maxRequests windowMs m later in
      (o :: os, m')
  end.

Definition proceeds (o : outcome) : bool :=
  match o with
  | Next => true
  | _ => false
  end.

(** The clock readings of the requests that were let through. *)
Definition admittedTimes (clock : list Z) (outcomes : list outcome) : list Z :=
  map fst (List.filter (fun p => proceeds (snd p)) (combine clock outcomes)).

(** [a] lies in the window of length [windowMs] that ends at [t]. *)
Definition inWindow (t windowMs a : Z) : bool :=
  Z.ltb (t - windowMs) a && Z.leb a t.

(** One user's share of the traffic. *)
Definition requestsOf (userId : string) (requests : list (string * Z)) : list Z :=
  map snd (List.filter (fun r => String.eqb (fst r) userId) requests).

Definition outcomesOf (userId : string) (requests : list (string * Z))
    (outcomes : list outcome) : list outcome :=
  map snd (List.filter (fun p => String.eqb (fst (fst p)) userId)
             (combine requests outcomes)).

End Traffic.

(** ** [routes/resources.js]: search, categories, recommendations, template *)
Module Resources.
Import Js.

Record resource : Type := mkResource {
  id : string;
  title : string;
  type : string;
  category : string;
  description : string;
  url : string;
  jurisdiction : string;
  relevanceScore : float;
  lastUpdated : string
}.

(** [const mockLegalResources = [ ... ]]. *)
Definition mockLegalResources : list resource :=
  [ mkResource "1" "Contract Law Fundamentals" "guide" "contract"
      "Comprehensive guide to understanding contract law basics"
      "https://example.com/contract-law-guide" "federal" 0.95 "2024-01-15";
    mkResource "2" "Employment Rights Handbook" "handbook" "employment"
      "Complete handbook on employee rights and employer obligations"
      "https://example.com/employment-handbook" "federal" 0.88 "2024-02-01";
    mkResource "3" "Family Court Procedures" "procedure" "family"
      "Step-by-step guide to family court procedures and requirements"
      "https://example.com/family-court-procedures" "state" 0.92 "2024-01-20";
    mkResource "4" "Criminal Defense Strategies" "strategy" "criminal"
      "Advanced strategies for criminal defense cases"
      "https://example.com/criminal-defense" "federal" 0.87 "2024-01-10";
    mkResource "5" "Real Estate Transaction Guide" "guide" "real-estate"
      "Complete guide to real estate transactions and documentation"
      "https://example.com/real-estate-guide" "state" 0.90 "2024-02-05" ].

(** *** Strings *)

Definition isUpper (c : ascii) : bool :=
  (65 <=? nat_of_ascii c)%nat && (nat_of_ascii c <=? 90)%nat.

Definition lowerChar (c : ascii) : ascii :=
  if isUpper c then ascii_of_nat (nat_of_ascii c + 32) else c.

(** Lower-casing of ASCII letters: the letters A to Z are replaced, every
    other character is kept. *)
Fixpoint lowerAscii (s : string) : string :=
  match s with
  | EmptyString => EmptyString
  | String c rest => String (lowerChar c) (lowerAscii rest)
  end.

Definition isAscii (s : string) : bool :=
  forallb (fun c => (nat_of_ascii c <? 128)%nat) (list_ascii_of_string s).

(** [String.prototype.toLowerCase].  It follows the Unicode case mappings
    of the engine (the Kelvin sign U+212A, for one, becomes [k]), so the
    embedding takes it as given; what is known of it here is what it does
    to ASCII text.  Strings hold text in UTF-8, where one text is part of
    another exactly when its bytes are. *)
Class StringCase : Type := {
  toLowerCase : string -> string;
  toLowerCase_ascii :
    forall s, isAscii s = true -> toLowerCase s = lowerAscii s
}.

(** [hay.includes(needle)]. *)
Fixpoint includes (hay needle : string) : bool :=
  String.prefix needle hay
  || match hay with
     | EmptyString => false
     | String _ rest => includes rest needle
     end.

(** A query or body value used as a condition: absent and empty are falsy. *)
Definition given (v : option string) : option string :=
  match v with
  | Some "" => None
  | other => other
  end.

(** *** [Array.prototype.slice] and [Array.prototype.sort] *)

Definition relativeIndex (len i : Z) : Z :=
  if (i <? 0)%Z then Z.max (len + i) 0 else Z.min i len.

(** [l.slice(start, end)], negative indices counting from the end. *)
Definition slice {A : Type} (start finish : Z) (l : list A) : list A :=
  let len := Z.of_nat (length l) in
  let k := relativeIndex len start in
  let final := relativeIndex len finish in
  firstn (Z.to_nat (final - k)) (skipn (Z.to_nat k) l).

(** A comparator that orders the elements of [l]: it answers zero on equal
    arguments, opposite signs on swapped arguments, and is transitive.
    Such a comparator is a consistent comparison function in the sense of
    ECMA-262. *)
Definition consistent {A : Type} (cmp : A -> A -> Z) (l : list A) : Prop :=
  (forall a, In a l -> cmp a a = 0%Z)
  /\ (forall a b, In a l -> In b l ->
        ((cmp a b < 0)%Z <-> (0 < cmp b a)%Z))
  /\ (forall a b c, In a l -> In b l -> In c l ->
        (cmp a b <= 0)%Z -> (cmp b c <= 0)%Z -> (cmp a c <= 0)%Z).

(** [l.sort(comparefn)] as ECMA-262 specifies it: the result holds the same
    elements; when the comparator is consistent, no element comes before one
    the comparator puts ahead of it.  With any other comparator the order is
    the engine's choice. *)
Class ArraySort : Type := {
  sortWith : forall {A : Type}, (A -> A -> Z) -> list A -> list A;
  sortWith_permutation :
    forall (A : Type) (cmp : A -> A -> Z) (l : list A),
      Permutation (sortWith cmp l) l;
  sortWith_sorted :
    forall (A : Type) (cmp : A -> A -> Z) (l : list A),
      consistent cmp l ->
      StronglySorted (fun a b => (cmp a b <= 0)%Z) (sortWith cmp l)
}.

(** Insertion sort, one way an engine may sort. *)
Fixpoint insertSorted {A : Type} (cmp : A -> A -> Z) (x : A) (l : list A) : list A :=
  match l with
  | [] => [ x ]
  | y :: rest =>
      if (cmp x y <? 0)%Z then x :: y :: rest
      else y :: insertSorted cmp x rest
  end.

Definition insertionSort {A : Type} (cmp : A -> A -> Z) (l : list A) : list A :=
  fold_left (fun sorted x => insertSorted cmp x sorted) l [].

(** *** [GET /search] *)

Record query : Type := mkQuery {
  q : option string;
  query_category : option string;
  query_type : option string;
  query_jurisdiction : option string;
  page : option Z;        (* an integer, 1 or more, once validated *)
  limit : option Z;       (* an integer from 1 to 50, once validated *)
  sortBy : option string;
  sortOrder : option string
}.

(** The value of a property of a resource, as far as [>] can tell values
    apart. *)
Inductive fieldValue : Type :=
| VStr (s : string)
| VNum (x : float)
| VOther.           (* undefined, or a built-in inherited from Object.prototype *)

(** [resource[sortBy]]. *)
Definition field (name : string) (r : resource) : fieldValue :=
  if String.eqb name "id" then VStr (id r)
  else if String.eqb name "title" then VStr (title r)
  else if String.eqb name "type" then VStr (type r)
  else if String.eqb name "category" then VStr (category r)
  else if String.eqb name "description" then VStr (description r)
  else if String.eqb name "url" then VStr (url r)
  else if String.eqb name "jurisdiction" then VStr (jurisdiction r)
  else if String.eqb name "relevanceScore" then VNum (relevanceScore r)
  else if String.eqb name "lastUpdated" then VStr (lastUpdated r)
  else VOther.

(** [x > y] for two values of one property: strings by code units, numbers
    by value; [undefined > undefined] and a built-in against itself are
    false. *)
Definition greater (x y : fieldValue) : bool :=
  match x, y with
  | VStr a, VStr b => String.ltb b a
  | VNum a, VNum b => PrimFloat.ltb b a
  | _, _ => false
  end.

(** The comparator handed to [sort].  It never answers zero, not even for
    an element and itself. *)
Definition searchOrder (sortBy sortOrder : string) (a b : resource) : Z :=
  let aValue := field sortBy a in
  let bValue := field sortBy b in
  if String.eqb sortOrder "desc" then
    (if greater bValue aValue then 1 else -1)%Z
  else
    (if greater aValue bValue then 1 else -1)%Z.

Definition matchesText {platform : StringCase} (searchTerm : string)
    (r : resource) : bool :=
  includes (toLowerCase (title r)) searchTerm
  || includes (toLowerCase (description r)) searchTerm
  || includes (toLowerCase (category r)) searchTerm.

Definition filterBy (condition : option string) (keep : string -> resource -> bool)
    (l : list resource) : list resource :=
  match given condition with
  | Some v => List.filter (keep v) l
  | None => l
  end.

Record pagination : Type := mkPagination {
  current : Z;
  total : Z;
  count : Z;
  totalRecords : Z
}.

Record searchResult : Type := mkSearchResult {
  resources : list resource;
  result_pagination : pagination;
  searchQuery : option string;
  filter_category : option string;
  filter_type : option string;
  filter_jurisdiction : option string
}.

Section Search.
Context {engine : ArraySort} {platform : StringCase}.
Variable allResources : list resource.

(** The resources that pass the filters, sorted. *)
Definition filteredResources (qu : query) : list resource :=
  let afterText :=
    filterBy (q qu) (fun v => matchesText (toLowerCase v)) allResources in
  let afterCategory :=
    filterBy (query_category qu) (fun v r => String.eqb (category r) v) afterText in
  let afterType :=
    filterBy (query_type qu) (fun v r => String.eqb (type r) v) afterCategory in
  let afterJurisdiction :=
    filterBy (query_jurisdiction qu) (fun v r => String.eqb (jurisdiction r) v)
      afterType in
  sortWith (searchOrder (default "relevanceScore" (sortBy qu))
                        (default "desc" (sortOrder qu)))
           afterJurisdiction.

(** The handler of [GET /search] for a query that passed validation. *)
Definition search (qu : query) : searchResult :=
  let pageNumber := default 1%Z (page qu) in
  let pageSize := default 10%Z (limit qu) in
  let sorted := filteredResources qu in
  let skip := ((pageNumber - 1) * pageSize)%Z in
  let paginatedResources := slice skip (skip + pageSize) sorted in
  let total := Z.of_nat (length sorted) in
  mkSearchResult paginatedResources
    (mkPagination pageNumber (RateLimit.ceil_div total pageSize)
       (Z.of_nat (length paginatedResources)) total)
    (q qu) (query_category qu) (query_type qu) (query_jurisdiction qu).
End Search.

(** *** [GET /categories] *)

(** [[...new Set(values)]]: each value once, in order of first appearance. *)
Fixpoint distinct (values : list string) : list string :=
  match values with
  | [] => []
  | v :: rest => v :: List.filter (fun w => negb (String.eqb w v)) (distinct rest)
  end.

Record facets : Type := mkFacets {
  categories : list string;
  types : list string;
  jurisdictions : list string
}.

Definition getCategories (allResources : list resource) : facets :=
  mkFacets (distinct (map category allResources))
           (distinct (map type allResources))
           (distinct (map jurisdiction allResources)).

(** *** [GET /recommendations/:caseId] *)

(** The fields of a case document the handler reads. *)
Record caseDoc : Type := mkCaseDoc {
  case_id : string;
  case_title : string;
  caseType : string;
  priority : string
}.

(** What [await Case.findOne({ _id: caseId, userId: req.user._id })] comes
    to: a case of this user, [null], or a rejection (a [caseId] that is no
    ObjectId, a database error). *)
Inductive caseLookup : Type :=
| CaseFound (c : caseDoc)
| NoCase
| CaseLookupThrows.

Definition categoryMapping : list (string * list string) :=
  [ ("civil", [ "contract"; "civil" ]);
    ("criminal", [ "criminal" ]);
    ("family", [ "family" ]);
    ("employment", [ "employment" ]);
    ("real-estate", [ "real-estate" ]);
    ("corporate", [ "contract"; "corporate" ]);
    ("personal-injury", [ "civil"; "personal-injury" ]) ].

(** [categoryMapping[caseType] || ['general']]; [None] stands for a
    built-in inherited from [Object.prototype], which is truthy and has no
    [includes] method. *)
Definition relevantCategories (caseType : string) : option (list string) :=
  match assoc caseType categoryMapping with
  | Some categories => Some categories
  | None => if inherited caseType then None else Some [ "general" ]
  end.

(** The sign [sort] reads off a comparator's result; [NaN] counts as
    zero. *)
Definition sign (v : float) : Z :=
  if PrimFloat.ltb v 0 then (-1)%Z
  else if PrimFloat.ltb 0 v then 1%Z
  else 0%Z.

(** [(a, b) => b.relevanceScore - a.relevanceScore]. *)
Definition byRelevance (a b : resource) : Z :=
  sign (relevanceScore b - relevanceScore a).

Record recommendation : Type := mkRecommendation {
  recommended : list resource;
  caseInfo : string * string * string * string;  (* id, title, type, priority *)
  recommended_count : Z
}.

Inductive recommendationReply : Type :=
| Recommended (r : recommendation)
| Refused (r : response)
| RecommendationFailed.     (* the [catch] block's 500 *)

Section Recommendations.
Context {engine : ArraySort}.
Variable allResources : list resource.

(** The handler of [GET /recommendations/:caseId], given the outcome of
    the case lookup. *)
Definition recommendations (found : caseLookup) : recommendationReply :=
  match found with
  | CaseLookupThrows => RecommendationFailed
  | NoCase =>
      Refused (mkResponse 404
        [ ("message", FStr "Case not found"); ("code", FStr "CASE_NOT_FOUND") ])
  | CaseFound caseDoc =>
      match relevantCategories (caseType caseDoc), allResources with
      | None, _ :: _ =>
          (* the filter's first call throws a TypeError *)
          RecommendationFailed
      | None, [] =>
          Recommended (mkRecommendation []
            (case_id caseDoc, case_title caseDoc, caseType caseDoc, priority caseDoc)
            0)
      | Some categories, _ =>
          let recommendedResources :=
            slice 0 10
              (sortWith byRelevance
                 (List.filter (fun r => mem (category r) categories) allResources)) in
          Recommended (mkRecommendation recommendedResources
            (case_id caseDoc, case_title caseDoc, caseType caseDoc, priority caseDoc)
            (Z.of_nat (length recommendedResources)))
      end
  end.
End Recommendations.

End Resources.

(** ** [routes/resources.js]: the risk-assessment route and its template *)
Module RiskRoute.
Import Js Risk.

(** The labels the route's validators accept for each factor,
    [body('factors.<key>').isIn([...])]. *)
Definition factorChoices : list (string * list string) :=
  [ ("case_complexity", [ "low"; "medium"; "high" ]);
    ("evidence_strength", [ "strong"; "moderate"; "weak" ]);
    ("opponent_resources", [ "limited"; "moderate"; "extensive" ]);
    ("time_constraints", [ "adequate"; "tight"; "urgent" ]);
    ("financial_impact", [ "low"; "medium"; "high" ]) ].

Definition isLower (c : ascii) : bool :=
  (97 <=? nat_of_ascii c)%nat && (nat_of_ascii c <=? 122)%nat.
Definition isDigit (c : ascii) : bool :=
  (48 <=? nat_of_ascii c)%nat && (nat_of_ascii c <=? 57)%nat.

(** [\w]. *)
Definition isWordChar (c : ascii) : bool :=
  Resources.isUpper c || isLower c || isDigit c || Ascii.eqb c "_"%char.

(** [c.toUpperCase()] for one character in the ASCII range. *)
Definition upperChar (c : ascii) : ascii :=
  if isLower c then ascii_of_nat (nat_of_ascii c - 32) else c.

(** [s.replace(/_/g, ' ')]. *)
Fixpoint underscoresToSpaces (s : string) : string :=
  match s with
  | EmptyString => EmptyString
  | String c rest =>
      String (if Ascii.eqb c "_"%char then " "%char else c) (underscoresToSpaces rest)
  end.

(** [s.replace(/\b\w/g, l => l.toUpperCase())]: a word character is
    replaced when the character before it is not one.  [afterWord] tells
    whether the previous character was a word character. *)
Fixpoint capitalizeWords (afterWord : bool) (s : string) : string :=
  match s with
  | EmptyString => EmptyString
  | String c rest =>
      String (if isWordChar c && negb afterWord then upperChar c else c)
             (capitalizeWords (isWordChar c) rest)
  end.

(** [s.charAt(0).toUpperCase() + s.slice(1)]. *)
Definition capitalize (s : string) : string :=
  match s with
  | EmptyString => EmptyString
  | String c rest => String (upperChar c) rest
  end.

Record templateOption : Type := mkTemplateOption {
  option_value : string;
  option_label : string;
  option_description : string;
  option_score : float
}.

Record templateFactor : Type := mkTemplateFactor {
  factor_id : string;
  factor_name : string;
  factor_options : list templateOption
}.

Record template : Type := mkTemplate {
  template_factors : list templateFactor;
  additionalFactorOptions : list string
}.

(** The handler of [GET /risk-assessment/template]. *)
Definition getTemplate : template :=
  mkTemplate
    (map (fun entry : string * list (string * factor) =>
            let '(key, row) := entry in
            mkTemplateFactor key
              (capitalizeWords false (underscoresToSpaces key))
              (map (fun choice : string * factor =>
                      let '(optionKey, f) := choice in
                      mkTemplateOption optionKey (capitalize optionKey)
                        (description f) (score f))
                   row))
         riskFactors)
    [ "Statute of limitations concerns";
      "Jurisdictional issues";
      "Precedent availability";
      "Public interest impact";
      "Media attention potential";
      "Settlement likelihood";
      "Appeal probability";
      "Enforcement challenges" ].

(** *** [POST /risk-assessment]: the whole handler *)

(** [req.body] of a request that passed validation. *)
Record riskBody : Type := mkBody {
  body_caseId : option string;
  body_factors : list (string * string);          (* in [Object.keys] order *)
  body_additionalFactors : option (list string);
  body_description : option string
}.

(** What [await Case.findOne({ _id: caseId, userId: req.user._id })] comes
    to: a case of this user (of which the handler keeps [_id], [title],
    [caseType] and [status]), [null], or a rejection. *)
Inductive caseFound : Type :=
| CaseDoc (info : caseInfo)
| NoSuchCase
| CaseLookupThrows.

Inductive routeReply : Type :=
| Assessed (a : assessment)   (* 200, "Risk assessment completed" *)
| Refused (r : response)
| RouteFailed.                (* the [catch] block's 500 *)

Definition caseNotFound : response :=
  mkResponse 404
    [ ("message", FStr "Case not found"); ("code", FStr "CASE_NOT_FOUND") ].

Section Route.
Variable builtinOwn : string -> string -> truth.
(** The case store, asked with the [caseId] sent and the user's id. *)
Variable findCase : string -> string -> caseFound.

(** The lookup the handler makes: none when [caseId] is falsy. *)
Definition caseOf (userId : string) (b : riskBody) : option (string * caseFound) :=
  match body_caseId b with
  | Some (String c rest) => Some (String c rest, findCase (String c rest) userId)
  | _ => None
  end.

(** The scoring, once the case is settled. *)
Definition scoreRequest (clockId clockCreated : Z) (userId : string) (b : riskBody)
    (found : option (string * caseInfo)) : routeReply :=
  match assess builtinOwn clockId clockCreated
          (mkRequest userId found (body_factors b)
             (default [] (body_additionalFactors b)) (body_description b)) with
  | Completed a => Assessed a
  | Failed => RouteFailed
  end.

(** The handler, for the user [userId] the authentication attached. *)
Definition riskAssessment (clockId clockCreated : Z) (userId : string) (b : riskBody)
  : routeReply :=
  match caseOf userId b with
  | None => scoreRequest clockId clockCreated userId b None
  | Some (sent, CaseDoc info) =>
      scoreRequest clockId clockCreated userId b (Some (sent, info))
  | Some (_, NoSuchCase) => Refused caseNotFound
  | Some (_, CaseLookupThrows) => RouteFailed
  end.
End Route.

End RiskRoute.

(** ** [routes/auth.js]: login and password change *)
Module Accounts.
Import Js Auth.

(** A user document with its password: what [User.findOne] returns. *)
Record account : Type := mkAccount {
  account_user : user;
  profileName : string;
  email : option string;
  password : option string    (* the stored hash; [None] for [null] *)
}.

(** A string used as a condition: [undefined], [null] and the empty string
    are falsy. *)
Definition truthy (v : option string) : bool :=
  match v with
  | None => false
  | Some "" => false
  | Some _ => true
  end.

(** [req.body] of a login request. *)
Record credentials : Type := mkCredentials {
  login_profileName : option string;
  login_email : option string;
  login_password : option string
}.

(** What [await User.findOne(...)] comes to. *)
Inductive found : Type :=
| Account (a : account)
| NoAccount
| FindThrows.

Inductive loginReply : Type :=
| LoggedIn (token : string) (a : account)   (* 200, with the public profile *)
| LoginRefused (r : response)
| LoginFailed.                              (* the [catch] block's 500 *)

Definition credentialsRequired : response :=
  mkResponse 400
    [ ("message", FStr "Profile name or email is required");
      ("code", FStr "CREDENTIALS_REQUIRED") ].

Definition invalidCredentials : response :=
  mkResponse 401
    [ ("message", FStr "Invalid credentials");
      ("code", FStr "INVALID_CREDENTIALS") ].

Section Collaborators.
Variable findByProfileName : string -> found.
Variable findByEmail : string -> found.
(** [bcrypt.compare(candidate, hash)]; [None] when it rejects. *)
Variable bcryptCompare : string -> string -> option bool.
(** Whether [user.save()] resolves. *)
Variable save : account -> bool.
(** [jwt.sign({ userId }, secret, { expiresIn: '7d' })]; [None] when it
    throws. *)
Variable jwtSign : string -> option string.

(** [userSchema.methods.comparePassword]. *)
Definition comparePassword (a : account) (candidatePassword : string)
  : option bool :=
  match password a with
  | None => Some false
  | Some "" => Some false
  | Some hash => bcryptCompare candidatePassword hash
  end.

Definition generateToken (userId : string) : option string := jwtSign userId.

(** The account the request names: by profile name when one is given, by
    email otherwise; [None] when it gives neither. *)
Definition findUser (body : credentials) : option found :=
  match login_profileName body with
  | Some (String c rest) => Some (findByProfileName (String c rest))
  | _ =>
      match login_email body with
      | Some (String c rest) => Some (findByEmail (String c rest))
      | _ => None
      end
  end.

(** The password check: [Some true] to go on, [Some false] to refuse,
    [None] when the comparison throws. *)
Definition checkPassword (a : account) (sent : option string) : option bool :=
  if truthy sent && truthy (password a) then
    match sent with
    | Some candidate => comparePassword a candidate
    | None => Some false
    end
  else if truthy sent || truthy (password a) then Some false
  else Some true.

(** The handler of [POST /login] for a body that passed validation. *)
Definition login (body : credentials) : loginReply :=
  match findUser body with
  | None => LoginRefused credentialsRequired
  | Some FindThrows => LoginFailed
  | Some NoAccount => LoginRefused invalidCredentials
  | Some (Account a) =>
      if negb (isActive (account_user a)) then LoginRefused invalidCredentials
      else
        match checkPassword a (login_password body) with
        | None => LoginFailed
        | Some false => LoginRefused invalidCredentials
        | Some true =>
            if save a then
              match generateToken (_id (account_user a)) with
              | Some token => LoggedIn token a
              | None => LoginFailed
              end
            else LoginFailed
        end
  end.
End Collaborators.

(** *** [PUT /password] *)




Section PasswordChange.
Variable bcryptCompare : string -> string -> option bool.
(** Whether [user.save()] resolves once [user.password = newPassword]. *)
Variable save : string -> bool.

End PasswordChange.

End Accounts.

(* ===================================================================== *)
(** * Part II. Properties                                                 *)
(* ===================================================================== *)

(** ** Identity and session verification *)
Module AuthSpec.
Import Js Auth.



Lemma split_space_nonempty (s : string) : split_space s <> [].
Proof.
  destruct s as [| c rest]; simpl; [discriminate |].
  destruct (Ascii.eqb c " "); [discriminate |].
  destruct (split_space rest); discriminate.
Qed.

(** A piece with no space in it is returned whole. *)
Lemma split_space_word (w : string) :
  (forall c, In c (list_ascii_of_string w) -> c <> " "%char) ->
  split_space w = [ w ].
Proof.
  induction w as [| c rest IH]; intros Hw; simpl; [reflexivity |].
  destruct (Ascii.eqb_spec c " ") as [-> | _].
  - exfalso. apply (Hw " "%char); [left |]; reflexivity.
  - rewrite IH; [reflexivity |].
    intros d Hd. apply Hw. right. exact Hd.
Qed.

(** The header [Bearer <token>] yields the token. *)
Lemma bearerToken_bearer (token : string) :
  token <> "" ->
  (forall c, In c (list_ascii_of_string token) -> c <> " "%char) ->
  bearerToken (Some ("Bearer " ++ token)) = Some token.
Proof.
  intros Hne Hw. unfold bearerToken.
  change ("Bearer " ++ token) with
    (String "B" (String "e" (String "a" (String "r" (String "e"
      (String "r" (String " " token))))))).
  cbn [split_space Ascii.eqb Bool.eqb].
  rewrite (split_space_word token Hw). cbn.
  destruct token; [congruence | reflexivity].
Qed.

Lemma bearerToken_missing_header : bearerToken None = None.
Proof. reflexivity. Qed.

Section Verification.
Variable jwtVerify : string -> verified.
Variable findById : option string -> lookup.



(** The only way through: a token that verifies and names an active
    user, who is then attached to the request. *)
Lemma authenticateToken_attaches (authHeader : option string) (u : user) :
  authenticateToken jwtVerify findById authHeader = Attached u <->
  exists token uid,
    bearerToken authHeader = Some token
    /\ jwtVerify token = Decoded uid
    /\ findById uid = Found u
    /\ isActive u = true.
Proof.
  unfold authenticateToken, onError, reject. split.
  - destruct (bearerToken authHeader) as [token |]; [| discriminate].
    destruct (jwtVerify token) as [uid | e] eqn:Hv.
    + destruct (findById uid) as [u' | | e] eqn:Hl.
      * destruct (isActive u') eqn:Ha; [| discriminate].
        intros [= <-]. exists token, uid. auto.
      * discriminate.
      * repeat match goal with |- context [if ?b then _ else _] => destruct b end;
          discriminate.
    + repeat match goal with |- context [if ?b then _ else _] => destruct b end;
        discriminate.
  - intros (token & uid & -> & -> & -> & ->). reflexivity.
Qed.
End Verification.


End AuthSpec.

(** ** Ownership gate *)
Module OwnershipSpec.
Import Js Ownership.





(** A body that carries no owner at all. *)
Definition ownerless : object := [ ("title", IdStr "lease") ].

Lemma get_own (o : object) (f : string) (v : idval) :
  assoc f o = Some v -> get o f = v.
Proof. unfold get. intros ->. reflexivity. Qed.




(** C9. When the resource object is there but the configured ownership
    field reads [undefined], the gate neither proceeds nor answers: the
    comparison calls [toString] on [undefined] and a TypeError escapes. *)
Theorem checkResourceOwnership_missing_field_throws
    (field : string) (req : request) (resource : object) :
  resource_of req = Some resource ->
  get resource field = IdUndefined ->
  checkResourceOwnership field req = Throw "TypeError"
  /\ checkResourceOwnership field req <> Next
  /\ (forall r, checkResourceOwnership field req <> Respond r).
Proof.
  intros Hres Hget. unfold checkResourceOwnership.
  rewrite Hres. cbv zeta. rewrite Hget. cbn.
  destruct (req_user_id req); repeat split; discriminate.
Qed.

Lemma checkResourceOwnership_missing_field_throws_witness :
  checkResourceOwnership "userId" (mkRequest None (Some ownerless) (Some (IdStr "7")))
    = Throw "TypeError"
  /\ checkResourceOwnership "userId" (mkRequest None (Some ownerless) (Some (IdStr "7")))
    <> Next
  /\ (forall r,
        checkResourceOwnership "userId"
          (mkRequest None (Some ownerless) (Some (IdStr "7"))) <> Respond r).
Proof.
  apply (checkResourceOwnership_missing_field_throws "userId"
           (mkRequest None (Some ownerless) (Some (IdStr "7"))) ownerless);
    reflexivity.
Defined.

(** The gate's decision is defined (proceeds or answers) exactly when a
    resource is absent, or both ids have a string form. *)
Lemma checkResourceOwnership_total_iff (field : string) (req : request) :
  (forall e, checkResourceOwnership field req <> Throw e) <->
  (resource_of req = None
   \/ exists resource uid a b,
        resource_of req = Some resource /\ req_user_id req = Some uid
        /\ toString (get resource field) = Some a /\ toString uid = Some b).
Proof.
  unfold checkResourceOwnership.
  destruct (resource_of req) as [resource |]; cbv zeta.
  - destruct (req_user_id req) as [uid |].
    + destruct (toString (get resource field)) as [a |] eqn:Ha.
      * destruct (toString uid) as [b |] eqn:Hb.
        -- split.
           ++ intros _. right. exists resource, uid, a, b. auto.
           ++ intros _ e. destruct (String.eqb a b); discriminate.
        -- split.
           ++ intros H. exfalso. apply (H "TypeError"). reflexivity.
           ++ intros [[=] | (r & u & a' & b' & [= <-] & [= <-] & _ & Hb')].
              congruence.
      * split.
        -- intros H. exfalso. apply (H "TypeError"). reflexivity.
        -- intros [[=] | (r & u & a' & b' & [= <-] & _ & Ha' & _)].
           congruence.
    + split.
      * intros H. exfalso. apply (H "TypeError"). reflexivity.
      * intros [[=] | (r & u & a' & b' & _ & [=] & _)].
  - split.
    + intros _. left. reflexivity.
    + intros _ e. discriminate.
Qed.

End OwnershipSpec.

(** ** Subscription gate *)
Module SubscriptionSpec.
Import Js Subscription.

Definition subscriptionRequired (requiredLevel userPlan : string) : response :=
  mkResponse 403
    [ ("message", FStr ("This feature requires " ++ requiredLevel ++ " subscription"));
      ("code", FStr "SUBSCRIPTION_REQUIRED");
      ("requiredLevel", FStr requiredLevel);
      ("currentLevel", FStr userPlan) ].

Lemma ordinal_range (plan : string) : (1 <= ordinal plan <= 3)%Z.
Proof.
  unfold ordinal, subscriptionLevels, assoc.
  repeat match goal with
         | |- context [String.eqb ?a ?b] => destruct (String.eqb a b)
         end; lia.
Qed.

(** A plan name outside the table has ordinal 1. *)
Lemma ordinal_unknown (plan : string) :
  assoc plan subscriptionLevels = None -> ordinal plan = 1%Z.
Proof. unfold ordinal. intros ->. reflexivity. Qed.

(** No table name is an inherited one. *)
Lemma table_not_inherited (plan : string) (n : Z) :
  assoc plan subscriptionLevels = Some n -> inherited plan = false.
Proof.
  unfold subscriptionLevels, assoc.
  destruct (String.eqb_spec plan "free") as [-> | _]; [reflexivity |].
  destruct (String.eqb_spec plan "premium") as [-> | _]; [reflexivity |].
  destruct (String.eqb_spec plan "enterprise") as [-> | _]; [reflexivity |].
  discriminate.
Qed.

(** What the gate compares: the ordinal, unless the name is inherited. *)
Lemma levelOf_cases (plan : string) :
  (inherited plan = false /\ levelOf plan = LNum (ordinal plan))
  \/ (inherited plan = true /\ levelOf plan = LBuiltin plan
      /\ ordinal plan = 1%Z).
Proof.
  unfold levelOf, ordinal.
  destruct (assoc plan subscriptionLevels) as [n |] eqn:Hn.
  - left. split; [exact (table_not_inherited plan n Hn) |].
    pose proof (ordinal_range plan) as Hr. unfold ordinal in Hr.
    rewrite Hn in Hr. destruct (Z.eqb_spec n 0); [lia | reflexivity].
  - destruct (inherited plan); [right | left]; auto.
Qed.

(** Away from inherited names the gate is the ordinal comparison.  For a
    user plan that is not the name of a property inherited from
    [Object.prototype] (so for every plan the user schema admits: free,
    premium, enterprise) and any required plan, the gate proceeds if and only if [ordinal userPlan >= ordinal
    requiredPlan], with ordinals from [{free:1, premium:2, enterprise:3}]
    and 1 for any other name; when it does not proceed it answers 403
    SUBSCRIPTION_REQUIRED carrying the required and the current plan. *)
Theorem requireSubscription_ordinal (requiredLevel userPlan : string) :
  inherited userPlan = false ->
  (requireSubscription requiredLevel userPlan = Next <->
     (ordinal userPlan >= ordinal requiredLevel)%Z)
  /\ ((ordinal userPlan < ordinal requiredLevel)%Z ->
        requireSubscription requiredLevel userPlan
          = Respond (subscriptionRequired requiredLevel userPlan)).
Proof.
  intros Hu. unfold requireSubscription. cbv zeta.
  fold (subscriptionRequired requiredLevel userPlan).
  destruct (levelOf_cases userPlan) as [[_ ->] | [Hi _]]; [| congruence].
  pose proof (ordinal_range userPlan) as Hru.
  destruct (levelOf_cases requiredLevel) as [[_ ->] | (_ & -> & Hr)]; cbn.
  - destruct (Z.ltb_spec (ordinal userPlan) (ordinal requiredLevel));
      (split; [split |]); intros; try reflexivity; try discriminate; lia.
  - split; [split |]; intros; try reflexivity; lia.
Qed.

Lemma requireSubscription_ordinal_witness :
  (requireSubscription "premium" "enterprise" = Next <->
     (ordinal "enterprise" >= ordinal "premium")%Z)
  /\ ((ordinal "enterprise" < ordinal "premium")%Z ->
        requireSubscription "premium" "enterprise"
          = Respond (subscriptionRequired "premium" "enterprise")).
Proof.
  apply (requireSubscription_ordinal "premium" "enterprise"). reflexivity.
Defined.

(** A user plan named [constructor] has ordinal 1 by the table rule, below
    enterprise's 3, yet the gate lets it through: [subscriptionLevels
    ['constructor']] is the inherited function [Object], which is truthy,
    and [Object < 3] is false. *)
Lemma requireSubscription_inherited_plan_passes :
  ~ (requireSubscription "enterprise" "constructor" = Next <->
       (ordinal "constructor" >= ordinal "enterprise")%Z).
Proof.
  intros [H _].
  assert (Hn : requireSubscription "enterprise" "constructor" = Next)
    by reflexivity.
  specialize (H Hn). vm_compute in H. apply H. reflexivity.
Qed.

(** C4, at the plan name [constructor].  By the table rule an unknown plan
    has ordinal 1, and [subscriptionLevels[plan] || 1] is how the gate
    gives it that ordinal: a user whose plan is the unknown name [basic] is
    refused enterprise features with 403 SUBSCRIPTION_REQUIRED.  The plan
    name [constructor] is unknown too, with ordinal 1 against enterprise's
    3, but the table lookup finds the inherited function [Object], which is
    truthy, so [|| 1] does not apply, [Object < 3] is false, and the gate
    lets the request through. *)
Theorem requireSubscription_inherited_plan_escalates :
  assoc "constructor" subscriptionLevels = None
  /\ assoc "basic" subscriptionLevels = None
  /\ ordinal "constructor" = 1%Z
  /\ ordinal "enterprise" = 3%Z
  /\ requireSubscription "enterprise" "basic"
     = Respond (subscriptionRequired "enterprise" "basic")
  /\ requireSubscription "enterprise" "constructor" = Next.
Proof. repeat split. Qed.

(** Every inherited name does the same against a paid tier. *)
Lemma requireSubscription_inherited_passes (requiredLevel userPlan : string) (n : Z) :
  inherited userPlan = true ->
  assoc requiredLevel subscriptionLevels = Some n ->
  requireSubscription requiredLevel userPlan = Next.
Proof.
  intros Hu Hr. unfold requireSubscription. cbv zeta.
  destruct (levelOf_cases userPlan) as [[Hi _] | (_ & -> & _)]; [congruence |].
  destruct (levelOf_cases requiredLevel) as [[_ ->] | (Hi & _)].
  - reflexivity.
  - rewrite (table_not_inherited requiredLevel n Hr) in Hi. discriminate.
Qed.

End SubscriptionSpec.

(** ** Per-user rate limit *)
Module RateLimitSpec.
Import Js RateLimit.

Local Open Scope Z_scope.

(** [ceil_div a 1000] is the ceiling of [a / 1000]. *)
Lemma ceil_div_spec (a r : Z) :
  ceil_div a 1000 = r <-> 1000 * (r - 1) < a <= 1000 * r.
Proof.
  unfold ceil_div. split.
  - intros <-. Z.div_mod_to_equations. lia.
  - intros H. Z.div_mod_to_equations. lia.
Qed.

Lemma recent_In (windowStart t : Z) (history : list Z) :
  In t (recent windowStart history) <-> In t history /\ windowStart < t.
Proof.
  unfold recent. rewrite filter_In, Z.ltb_lt. reflexivity.
Qed.

Lemma recent_all (windowStart : Z) (history : list Z) :
  Forall (fun t => windowStart < t) history ->
  recent windowStart history = history.
Proof.
  unfold recent. induction 1 as [| t l Ht _ IH]; simpl; [reflexivity |].
  apply Z.ltb_lt in Ht. rewrite Ht, IH. reflexivity.
Qed.

Lemma recent_none (windowStart : Z) (history : list Z) :
  Forall (fun t => t <= windowStart) history ->
  recent windowStart history = [].
Proof.
  unfold recent. induction 1 as [| t l Ht _ IH]; simpl; [reflexivity |].
  destruct (Z.ltb_spec windowStart t); [lia | exact IH].
Qed.

Lemma recent_length (windowStart : Z) (history : list Z) :
  (length (recent windowStart history) <= length history)%nat.
Proof.
  unfold recent. induction history as [| t l IH]; simpl; [lia |].
  destruct (windowStart <? t); simpl; lia.
Qed.

Lemma recent_expired_head (windowStart t : Z) (history : list Z) :
  t <= windowStart ->
  recent windowStart (t :: history) = recent windowStart history.
Proof.
  intros Ht. unfold recent. simpl.
  destruct (Z.ltb_spec windowStart t); [lia | reflexivity].
Qed.

(** Pruning keeps the order of what it keeps. *)
Lemma recent_sorted (windowStart : Z) (history : list Z) :
  StronglySorted Z.le history ->
  StronglySorted Z.le (recent windowStart history).
Proof.
  unfold recent. induction 1 as [| t l Hs IH Hall]; simpl; [constructor |].
  destruct (windowStart <? t); [| exact IH].
  constructor; [exact IH |].
  rewrite List.Forall_forall in *. intros x Hx.
  apply filter_In in Hx. apply Hall. tauto.
Qed.

Lemma sorted_head_least (first : Z) (rest : list Z) :
  StronglySorted Z.le (first :: rest) ->
  forall t, In t (first :: rest) -> first <= t.
Proof.
  intros Hs t [<- | Ht]; [lia |].
  apply StronglySorted_inv in Hs. destruct Hs as [_ Hall].
  rewrite List.Forall_forall in Hall. auto.
Qed.

Lemma userRateLimit_reject (maxRequests windowMs : Z)
    (userRequests : gmap string (list Z)) (userId : string) (now : Z) :
  maxRequests
    <= Z.of_nat (length (recent (now - windowMs) (default [] (userRequests !! userId)))) ->
  userRateLimit maxRequests windowMs userRequests userId now
  = (Respond (tooMany (recent (now - windowMs) (default [] (userRequests !! userId)))
                windowMs now),
     userRequests).
Proof.
  intros H. unfold userRateLimit. cbv zeta.
  apply Z.leb_le in H. rewrite H. reflexivity.
Qed.

Lemma userRateLimit_admit (maxRequests windowMs : Z)
    (userRequests : gmap string (list Z)) (userId : string) (now : Z) :
  Z.of_nat (length (recent (now - windowMs) (default [] (userRequests !! userId))))
    < maxRequests ->
  userRateLimit maxRequests windowMs userRequests userId now
  = (Next,
     <[ userId := (recent (now - windowMs) (default [] (userRequests !! userId))
                   ++ [ now ])%list ]> userRequests).
Proof.
  intros H. unfold userRateLimit. cbv zeta.
  apply Z.leb_gt in H. rewrite H. reflexivity.
Qed.

(** With a clock that never runs backwards the stored window stays in
    arrival order, so its first retained entry is the oldest one. *)
Lemma userRateLimit_keeps_order (maxRequests windowMs : Z)
    (userRequests : gmap string (list Z)) (userId : string) (now : Z) :
  StronglySorted Z.le (default [] (userRequests !! userId)) ->
  Forall (fun t => t <= now) (default [] (userRequests !! userId)) ->
  let after := snd (userRateLimit maxRequests windowMs userRequests userId now) in
  StronglySorted Z.le (default [] (after !! userId))
  /\ Forall (fun t => t <= now) (default [] (after !! userId)).
Proof.
  intros Hs Hle. unfold userRateLimit. cbv zeta.
  destruct (maxRequests <=? _); simpl; [auto |].
  rewrite lookup_insert_eq. simpl.
  assert (Hk : Forall (fun t => t <= now)
                 (recent (now - windowMs) (default [] (userRequests !! userId)))).
  { rewrite List.Forall_forall in *. intros t Ht. apply recent_In in Ht.
    apply Hle. tauto. }
  split.
  - pose proof (recent_sorted (now - windowMs) _ Hs) as Hk'.
    revert Hk' Hk.
    generalize (recent (now - windowMs) (default [] (userRequests !! userId))).
    induction l as [| t l IH]; intros Hk' Hk; simpl.
    + constructor; constructor.
    + apply StronglySorted_inv in Hk'. destruct Hk' as [Hl Hall].
      apply Forall_cons_iff in Hk. destruct Hk as [Ht Hk].
      constructor; [auto |].
      apply Forall_app. split; [exact Hall |]. constructor; [exact Ht | constructor].
  - apply Forall_app. split; [exact Hk |]. constructor; [lia | constructor].
Qed.

(** A check touches no other user's window. *)
Lemma userRateLimit_other_users (maxRequests windowMs : Z)
    (userRequests : gmap string (list Z)) (userId other : string) (now : Z) :
  other <> userId ->
  snd (userRateLimit maxRequests windowMs userRequests userId now) !! other
  = userRequests !! other.
Proof.
  intros Hne. unfold userRateLimit. cbv zeta.
  destruct (maxRequests <=? _); simpl; [reflexivity |].
  apply lookup_insert_ne. congruence.
Qed.

(** Served from a window in arrival order by a clock that never runs
    backwards, a user's window is in arrival order after any number of
    requests. *)
Lemma serve_keeps_order (maxRequests windowMs : Z) (userId : string)
    (clock : list Z) :
  StronglySorted Z.le clock ->
  forall userRequests : gmap string (list Z),
    StronglySorted Z.le (default [] (userRequests !! userId)) ->
    Forall (fun t => Forall (fun now => t <= now) clock)
           (default [] (userRequests !! userId)) ->
    StronglySorted Z.le
      (default [] (snd (serve maxRequests windowMs userRequests userId clock)
                   !! userId)).
Proof.
  induction 1 as [| now later Hlater IH Hnow]; intros userRequests Hs Hb.
  - exact Hs.
  - cbn [serve].
    destruct (userRateLimit maxRequests windowMs userRequests userId now)
      as [o m] eqn:Hstep.
    destruct (serve maxRequests windowMs m userId later) as [os m'] eqn:Hrest.
    cbn [snd].
    assert (Hle : Forall (fun t => t <= now) (default [] (userRequests !! userId))).
    { rewrite List.Forall_forall in *. intros t Ht.
      specialize (Hb t Ht). apply Forall_cons_iff in Hb. tauto. }
    pose proof (userRateLimit_keeps_order maxRequests windowMs userRequests
                  userId now Hs Hle) as Hk.
    cbv zeta in Hk. rewrite Hstep in Hk. cbn [snd] in Hk.
    destruct Hk as [Hs' Hle'].
    specialize (IH m Hs'). rewrite Hrest in IH. cbn [snd] in IH.
    apply IH.
    rewrite List.Forall_forall in *. intros t Ht.
    apply List.Forall_forall. intros x Hx.
    specialize (Hle' t Ht). specialize (Hnow x Hx). lia.
Qed.

(** C1, as the code has it.  A check for [userId] keeps the stored
    timestamps strictly newer than [now - windowMs]; one that is exactly
    [windowMs] old is already discarded.  If at least [maxRequests] are
    kept the request is answered 429 RATE_LIMIT_EXCEEDED and the map is
    left alone; the reply's [retryAfter] is the ceiling of [(first + windowMs
    - now) / 1000] for the first kept timestamp, which is the oldest one
    when the stored window is in arrival order.  Otherwise [now] is
    appended to the kept timestamps, the result is stored under [userId]
    and the request proceeds.  With 3 requests per 60 s, four requests
    within 10 s of a user with nothing stored from the 60 s before them see
    the fourth rejected, and a fifth made once 60 s have passed since the
    first is admitted. *)
Theorem userRateLimit_sliding_window (maxRequests windowMs : Z)
    (userRequests : gmap string (list Z)) (userId : string) (now : Z) :
  let history := default [] (userRequests !! userId) in
  let kept := recent (now - windowMs) history in
  (forall t, In t kept <-> In t history /\ now - windowMs < t)
  /\ (maxRequests <= Z.of_nat (length kept) ->
        userRateLimit maxRequests windowMs userRequests userId now
          = (Respond (tooMany kept windowMs now), userRequests)
        /\ status (tooMany kept windowMs now) = 429
        /\ code_of (tooMany kept windowMs now) = Some (FStr "RATE_LIMIT_EXCEEDED")
        /\ (forall first rest,
              kept = first :: rest ->
              exists seconds,
                assoc "retryAfter" (body (tooMany kept windowMs now))
                  = Some (FNum seconds)
                /\ 1000 * (seconds - 1) < first + windowMs - now <= 1000 * seconds
                /\ (StronglySorted Z.le history ->
                    forall t, In t kept -> first <= t)))
  /\ (Z.of_nat (length kept) < maxRequests ->
        userRateLimit maxRequests windowMs userRequests userId now
          = (Next, <[ userId := (kept ++ [ now ])%list ]> userRequests))
  /\ (forall t1 t2 t3 t4 t5,
        Forall (fun t => t <= t1 - 60000) history ->
        t1 <= t2 <= t3 -> t3 <= t4 <= t1 + 10000 ->
        t1 + 60000 <= t5 ->
        fst (serve 3 60000 userRequests userId [ t1; t2; t3; t4; t5 ])
          = [ Next; Next; Next;
              Respond (tooMany [ t1; t2; t3 ] 60000 t4);
              Next ]).
Proof.
  cbv zeta. split; [| split; [| split; [| ]]].
  - intros t. apply recent_In.
  - intros Hfull. split; [apply userRateLimit_reject; exact Hfull |].
    split; [reflexivity |]. split; [reflexivity |].
    intros first rest Hk. rewrite Hk. cbn.
    exists (ceil_div (first + windowMs - now) 1000).
    split; [reflexivity |]. split.
    + apply ceil_div_spec. reflexivity.
    + intros Hs t Ht.
      apply (sorted_head_least first rest); [| exact Ht].
      rewrite <- Hk. apply recent_sorted. exact Hs.
  - apply userRateLimit_admit.
  - intros t1 t2 t3 t4 t5 Hold H123 H34 H5.
    assert (Hdef : forall l : list Z, default [] (Some l) = l) by reflexivity.
    apply recent_none in Hold.
    unfold serve.
    rewrite userRateLimit_admit; rewrite Hold; [| cbn; lia].
    cbn [app].
    rewrite userRateLimit_admit; rewrite lookup_insert_eq, Hdef;
      rewrite (recent_all (t2 - 60000) [ t1 ]) by (repeat constructor; lia);
      [| cbn; lia].
    rewrite insert_insert_eq. cbn [app].
    rewrite userRateLimit_admit; rewrite lookup_insert_eq, Hdef;
      rewrite (recent_all (t3 - 60000) [ t1; t2 ]) by (repeat constructor; lia);
      [| cbn; lia].
    rewrite insert_insert_eq. cbn [app].
    rewrite userRateLimit_reject; rewrite lookup_insert_eq, Hdef;
      rewrite (recent_all (t4 - 60000) [ t1; t2; t3 ]) by (repeat constructor; lia);
      [| cbn; lia].
    rewrite userRateLimit_admit; rewrite lookup_insert_eq, Hdef.
    + reflexivity.
    + rewrite recent_expired_head by lia.
      pose proof (recent_length (t5 - 60000) [ t2; t3 ]) as Hlen.
      cbn [length] in Hlen. lia.
Qed.

Lemma userRateLimit_sliding_window_witness :
  fst (serve 3 60000 ∅ "u1" [ 1000; 2000; 5000; 9000; 61000 ])
    = [ Next; Next; Next;
        Respond (tooMany [ 1000; 2000; 5000 ] 60000 9000);
        Next ].
Proof.
  destruct (userRateLimit_sliding_window 3 60000 ∅ "u1" 0) as (_ & _ & _ & H).
  apply (H 1000 2000 5000 9000 61000); [constructor | lia | lia | lia].
Defined.

(** A timestamp exactly [windowMs] old: the source has already dropped it
    and admits the request, the rule as the specification words it still
    counts it and rejects. *)
Lemma userRateLimit_window_boundary :
  fst (userRateLimit 1 1000 {[ "u1" := [ 0 ] ]} "u1" 1000) = Next
  /\ fst (rateLimit_as_specified 1 1000 {[ "u1" := [ 0 ] ]} "u1" 1000)
     = Respond (tooMany [ 0 ] 1000 1000).
Proof. split; reflexivity. Qed.

(** C10. A check that is answered (the only answer being 429
    RATE_LIMIT_EXCEEDED) leaves the map exactly as it was: neither the
    pruned list nor the rejected request's timestamp is stored.  The
    requests that follow are treated as if the rejected one had never been
    made, and a check that changes the map is one that proceeds. *)
Theorem userRateLimit_rejection_writes_nothing (maxRequests windowMs : Z)
    (userRequests : gmap string (list Z)) (userId : string) (now : Z)
    (r : response) :
  fst (userRateLimit maxRequests windowMs userRequests userId now) = Respond r ->
  snd (userRateLimit maxRequests windowMs userRequests userId now) = userRequests
  /\ code_of r = Some (FStr "RATE_LIMIT_EXCEEDED")
  /\ (forall later,
        serve maxRequests windowMs userRequests userId (now :: later)
        = (Respond r :: fst (serve maxRequests windowMs userRequests userId later),
           snd (serve maxRequests windowMs userRequests userId later))).
Proof.
  unfold serve at 1. fold serve.
  unfold userRateLimit. cbv zeta.
  destruct (maxRequests <=? _); simpl; [| discriminate].
  intros [= <-]. split; [reflexivity |]. split; [reflexivity |].
  intros later.
  destruct (serve maxRequests windowMs userRequests userId later). reflexivity.
Qed.

Lemma userRateLimit_rejection_writes_nothing_witness :
  snd (userRateLimit 1 60000 {[ "u1" := [ 1000 ] ]} "u1" 2000)
    = {[ "u1" := [ 1000 ] ]}.
Proof.
  apply (userRateLimit_rejection_writes_nothing 1 60000 {[ "u1" := [ 1000 ] ]}
           "u1" 2000 (tooMany [ 1000 ] 60000 2000)).
  reflexivity.
Defined.

(** The map changes only when the request proceeds. *)
Lemma userRateLimit_change_means_admitted (maxRequests windowMs : Z)
    (userRequests : gmap string (list Z)) (userId : string) (now : Z) :
  snd (userRateLimit maxRequests windowMs userRequests userId now) <> userRequests ->
  fst (userRateLimit maxRequests windowMs userRequests userId now) = Next.
Proof.
  unfold userRateLimit. cbv zeta.
  destruct (maxRequests <=? _); simpl; [congruence | reflexivity].
Qed.

End RateLimitSpec.

(** ** Risk scoring *)
Module RiskSpec.
Import Js Risk.

(** The specification's worst case, keys in the order it lists them. *)
Definition worstCase : list (string * string) :=
  [ ("case_complexity", "high"); ("evidence_strength", "weak");
    ("opponent_resources", "extensive"); ("time_constraints", "urgent");
    ("financial_impact", "high") ].

(** Five valid labels whose weights 0.5, 0.7, 0.2, 0.4, 0.2 sum to 2.0:
    the mean is exactly 0.4. *)
Definition borderline : list (string * string) :=
  [ ("case_complexity", "medium"); ("evidence_strength", "weak");
    ("opponent_resources", "limited"); ("time_constraints", "tight");
    ("financial_impact", "low") ].

(** Every choice of one label per row, keys in the table's order: the 243
    mappings the route's validators accept when no extra key is sent. *)
Definition canonicalInputs : list (list (string * string)) :=
  fold_right
    (fun row acc =>
       flat_map (fun l => map (fun rest => (fst row, fst l) :: rest) acc) (snd row))
    [ [] ] riskFactors.

Definition detailOf (label : string) (f : factor) : detail :=
  mkDetail label (Some (score f)) (Some (description f)).

Definition worstCaseBreakdown : list (string * detail) :=
  [ ("case_complexity",
      detailOf "high" (mkFactor 0.8 "Complex case with multiple legal issues"));
    ("evidence_strength",
      detailOf "weak" (mkFactor 0.7 "Limited or weak evidence"));
    ("opponent_resources",
      detailOf "extensive" (mkFactor 0.7 "Opponent has extensive legal resources"));
    ("time_constraints",
      detailOf "urgent" (mkFactor 0.8 "Very tight deadlines and time pressure"));
    ("financial_impact",
      detailOf "high" (mkFactor 0.8 "High financial stakes involved")) ].

(** An engine whose built-in functions carry no further properties. *)
Definition bareEngine (_ _ : string) : truth := Falsy.

Definition allFour : list string :=
  (escalation ++ evidenceGathering ++ deadlineManagement ++ preparation)%list.

(** Score, level and recommendations of a reply. *)
Definition summary (r : reply) : option (float * string * list string) :=
  match r with
  | Completed a => Some (riskScore a, riskLevel a, recommendations a)
  | Failed => None
  end.

(** Score, level and per-factor breakdown of a reply. *)
Definition verdict (r : reply) : option (float * string * list (string * detail)) :=
  match r with
  | Completed a => Some (riskScore a, riskLevel a, factors a)
  | Failed => None
  end.

(** *** Every valid mapping: the weights that get added *)

(** The weights (in tenths) of the recognised entries, in arrival order. *)
Fixpoint weightsOf (fs : list (string * string)) : list Z :=
  match fs with
  | [] => []
  | e :: rest => match weight e with
                 | Some w => w :: weightsOf rest
                 | None => weightsOf rest
                 end
  end.

(** The weights the table holds. *)
Definition tableWeights : list Z := [ 1; 2; 4; 5; 7; 8 ]%Z.

(** The binary64 number a decimal literal [w/10] denotes. *)
Definition floatOfTenths (w : Z) : float := (of_uint63 (of_Z w) / 10)%float.

(** [totalRiskScore] after adding the given weights, left to right. *)
Definition addAll (ws : list Z) (acc : float) : float :=
  fold_left (fun a w => (a + floatOfTenths w)%float) ws acc.

(** [averageRiskScore] for those weights. *)
Definition codeAverage (ws : list Z) : float :=
  match length ws with
  | O => 0%float
  | S _ => (addAll ws 0 / count_as_number (length ws))%float
  end.

Definition total (ws : list Z) : Z := fold_right Z.add 0%Z ws.

(** The level the specification gives a mean of [s / (10 n)]. *)
Definition specLevel (s n : Z) : string :=
  if (7 * n <=? s)%Z then "high"
  else if (4 * n <=? s)%Z then "medium"
  else "low".

(** For one non-empty sequence of weights: a hundred times the computed
    average rounds to an integer [k], from 1 to 100, within a half of a
    hundred times the exact mean; and, unless the exact mean is 0.4 or 0.7,
    the level is the specified one. *)
Definition agrees (ws : list Z) : bool :=
  match ws with
  | [] => true
  | _ :: _ =>
      let average := codeAverage ws in
      let s := total ws in
      let n := Z.of_nat (length ws) in
      match nearestInteger (average * 100) with
      | Some k =>
          (0 <? k)%Z && (k <=? 100)%Z && (2 * Z.abs (n * k - 10 * s) <=? n)%Z
      | None => false
      end
      && (if ((s =? 4 * n) || (s =? 7 * n))%Z then true
          else String.eqb (fst (levelOf average)) (specLevel s n))
  end.

(** [check] holds of [done] followed by any sequence of at most [depth]
    table weights. *)
Fixpoint sweep (check : list Z -> bool) (depth : nat) (done : list Z) : bool :=
  check done
  && match depth with
     | O => true
     | S k => forallb (fun w => sweep check k (done ++ [ w ])%list) tableWeights
     end.

(** Entries that are either in the table or name nothing inherited. *)
Definition valid (fs : list (string * string)) : Prop :=
  Forall (fun e => weight e = None ->
                   inherited (fst e) = false /\ inherited (snd e) = false) fs.

(** The keys of the recognised entries. *)
Fixpoint keysOf (fs : list (string * string)) : list string :=
  match fs with
  | [] => []
  | e :: rest => match weight e with
                 | Some _ => fst e :: keysOf rest
                 | None => keysOf rest
                 end
  end.

(** *** Facts about the table that do not depend on the engine *)

Ltac split_tests :=
  repeat (match goal with
          | |- context [String.eqb ?a ?b] => destruct (String.eqb a b)
          end; cbn [assoc fst snd]).

Lemma weight_in (e : string * string) (w : Z) :
  weight e = Some w -> In w tableWeights.
Proof.
  destruct e as [k l]. unfold weight, tenths. cbn [assoc fst snd].
  split_tests; intros H; try discriminate H; injection H as <-; cbn; tauto.
Qed.

Lemma weight_key (e : string * string) (w : Z) :
  weight e = Some w -> In (fst e) (map fst tenths).
Proof.
  destruct e as [k l]. unfold weight, tenths. cbn [assoc fst snd map].
  destruct (String.eqb_spec k "case_complexity") as [-> | _]; [cbn; tauto |].
  destruct (String.eqb_spec k "evidence_strength") as [-> | _]; [cbn; tauto |].
  destruct (String.eqb_spec k "opponent_resources") as [-> | _]; [cbn; tauto |].
  destruct (String.eqb_spec k "time_constraints") as [-> | _]; [cbn; tauto |].
  destruct (String.eqb_spec k "financial_impact") as [-> | _]; [cbn; tauto |].
  discriminate.
Qed.

Lemma recognised_weights (fs : list (string * string)) :
  recognised fs = (total (weightsOf fs), Z.of_nat (length (weightsOf fs))).
Proof.
  induction fs as [| e fs IH]; [reflexivity |].
  cbn [recognised weightsOf]. rewrite IH.
  destruct (weight e) as [w |]; [| reflexivity].
  cbn [total fold_right length]. f_equal. lia.
Qed.

Lemma weightsOf_table (fs : list (string * string)) :
  Forall (fun w => In w tableWeights) (weightsOf fs).
Proof.
  induction fs as [| e fs IH]; [constructor |].
  cbn [weightsOf]. destruct (weight e) as [w |] eqn:Hw; [| exact IH].
  constructor; [exact (weight_in e w Hw) | exact IH].
Qed.

Lemma keysOf_length (fs : list (string * string)) :
  length (weightsOf fs) = length (keysOf fs).
Proof.
  induction fs as [| e fs IH]; [reflexivity |].
  cbn [weightsOf keysOf]. destruct (weight e); cbn [length]; rewrite IH; reflexivity.
Qed.

Lemma keysOf_sub (fs : list (string * string)) (k : string) :
  In k (keysOf fs) -> In k (map fst fs) /\ In k (map fst tenths).
Proof.
  induction fs as [| e fs IH]; [intros [] |].
  cbn [keysOf map]. destruct (weight e) as [w |] eqn:Hw.
  - intros [<- | Hk].
    + split; [left; reflexivity | exact (weight_key e w Hw)].
    + destruct (IH Hk). split; [right |]; assumption.
  - intros Hk. destruct (IH Hk). split; [right |]; assumption.
Qed.

Lemma keysOf_NoDup (fs : list (string * string)) :
  List.NoDup (map fst fs) -> List.NoDup (keysOf fs).
Proof.
  induction fs as [| e fs IH]; [constructor |].
  cbn [map keysOf]. intros Hnd. apply List.NoDup_cons_iff in Hnd.
  destruct Hnd as [Hne Hnd]. destruct (weight e); [| auto].
  constructor; [| auto].
  intros Hk. apply Hne. apply (keysOf_sub fs), Hk.
Qed.

Lemma weightsOf_length (fs : list (string * string)) :
  List.NoDup (map fst fs) -> (length (weightsOf fs) <= 5)%nat.
Proof.
  intros Hnd. rewrite keysOf_length.
  apply (List.NoDup_incl_length (keysOf_NoDup fs Hnd) (l' := map fst tenths)).
  intros k Hk. apply (keysOf_sub fs), Hk.
Qed.

Lemma average_valid (fs : list (string * string)) (t : tally) :
  totalRiskScore t = addAll (weightsOf fs) 0 ->
  factorCount t = length (weightsOf fs) ->
  averageRiskScore t = codeAverage (weightsOf fs).
Proof.
  intros Ht Hc. unfold averageRiskScore, codeAverage. rewrite Hc, Ht. reflexivity.
Qed.

Lemma level_as_specified_weights (fs : list (string * string)) :
  level_as_specified fs
  = specLevel (total (weightsOf fs)) (Z.of_nat (length (weightsOf fs))).
Proof. unfold level_as_specified. rewrite recognised_weights. reflexivity. Qed.

(** Every sequence of at most five table weights passes the check. *)
Lemma sweep_agrees : sweep agrees 5 [] = true.
Proof. vm_compute. reflexivity. Qed.

Lemma sweep_sound (check : list Z -> bool) (depth : nat) :
  forall done ws,
    sweep check depth done = true ->
    Forall (fun w => In w tableWeights) ws ->
    (length ws <= depth)%nat ->
    check (done ++ ws)%list = true.
Proof.
  induction depth as [| k IH]; intros done ws Hs Hall Hlen.
  - destruct ws; [| simpl in Hlen; lia].
    rewrite app_nil_r. simpl in Hs. apply andb_prop in Hs. tauto.
  - destruct ws as [| w ws].
    + rewrite app_nil_r. simpl in Hs. apply andb_prop in Hs. tauto.
    + cbn [sweep] in Hs. apply andb_prop in Hs. destruct Hs as [_ Hs].
      apply Forall_cons_iff in Hall. destruct Hall as [Hw Hall].
      rewrite forallb_forall in Hs. specialize (Hs w Hw).
      change (done ++ w :: ws)%list with (done ++ [ w ] ++ ws)%list.
      rewrite app_assoc. apply IH; [exact Hs | exact Hall | simpl in Hlen; lia].
Qed.

Section Engine.
Variable builtinOwn : string -> string -> truth.

Abbreviation lookup := (lookup builtinOwn).
Abbreviation visit := (visit builtinOwn).
Abbreviation forEach := (forEach builtinOwn).
Abbreviation assess := (assess builtinOwn).

(** *** Which entries the loop passes over *)

Lemma lookup_unknown_key (factorKey label : string) :
  assoc factorKey riskFactors = None ->
  inherited factorKey = false ->
  lookup factorKey label = Skipped.
Proof. unfold Risk.lookup. intros -> ->. reflexivity. Qed.

Lemma lookup_unknown_label (factorKey label : string)
    (row : list (string * factor)) :
  assoc factorKey riskFactors = Some row ->
  assoc label row = None ->
  inherited label = false ->
  lookup factorKey label = Skipped.
Proof. unfold Risk.lookup. intros -> -> ->. reflexivity. Qed.

Lemma visit_skipped (t : tally) (e : string * string) :
  lookup (fst e) (snd e) = Skipped -> visit t e = Some t.
Proof. destruct e as [k v]. unfold Risk.visit. simpl. intros ->. reflexivity. Qed.

(** An entry the test rejects leaves the loop's result as it would be
    without that entry, wherever it stands. *)
Lemma forEach_skip (t : tally) (before after : list (string * string))
    (e : string * string) :
  lookup (fst e) (snd e) = Skipped ->
  forEach t (before ++ e :: after) = forEach t (before ++ after).
Proof.
  intros He. revert t.
  induction before as [| b before IH]; intros t; simpl.
  - rewrite (visit_skipped t e He). reflexivity.
  - destruct (visit t b) as [t' |]; [apply IH | reflexivity].
Qed.

(** Score, level and breakdown are those of the mapping without a
    rejected entry. *)
Lemma assess_skips_rejected_entry (clockId clockCreated : Z)
    (u : string) (c : option (string * caseInfo)) (before after : list (string * string))
    (e : string * string) (extra : list string) (d : option string) :
  lookup (fst e) (snd e) = Skipped ->
  verdict (assess clockId clockCreated (mkRequest u c (before ++ e :: after) extra d))
  = verdict (assess clockId clockCreated (mkRequest u c (before ++ after) extra d)).
Proof.
  intros He. unfold Risk.assess. simpl.
  rewrite (forEach_skip _ before after e He).
  destruct (forEach _ (before ++ after)) as [t |]; [| reflexivity].
  destruct (levelOf (averageRiskScore t)). reflexivity.
Qed.

(** *** Every valid mapping *)

Lemma lookup_weight (k l : string) (w : Z) :
  weight (k, l) = Some w ->
  exists f, lookup k l = Entry f /\ score f = floatOfTenths w.
Proof.
  unfold weight, tenths, Risk.lookup, riskFactors.
  cbn [assoc fst snd].
  split_tests; intros H; try discriminate H; injection H as <-;
    eexists; split; reflexivity.
Qed.

Lemma lookup_noweight (k l : string) :
  weight (k, l) = None -> inherited k = false -> inherited l = false ->
  lookup k l = Skipped.
Proof.
  intros Hc Hk Hl. revert Hc.
  unfold weight, tenths, Risk.lookup, riskFactors.
  rewrite Hk, Hl.
  cbn [assoc fst snd].
  split_tests; intros H; try discriminate H; reflexivity.
Qed.
Lemma visit_weight (t : tally) (e : string * string) (w : Z) :
  weight e = Some w ->
  exists t', visit t e = Some t'
    /\ totalRiskScore t' = (totalRiskScore t + floatOfTenths w)%float
    /\ factorCount t' = S (factorCount t).
Proof.
  destruct e as [k l]. intros Hw.
  destruct (lookup_weight k l w Hw) as (f & Hf & Hs).
  unfold Risk.visit. rewrite Hf. eexists. split; [reflexivity |].
  cbn. rewrite Hs. auto.
Qed.

Lemma forEach_valid (fs : list (string * string)) :
  valid fs ->
  forall t, exists t',
    forEach t fs = Some t'
    /\ totalRiskScore t' = addAll (weightsOf fs) (totalRiskScore t)
    /\ factorCount t' = (factorCount t + length (weightsOf fs))%nat.
Proof.
  induction 1 as [| e fs He _ IH]; intros t.
  - exists t. cbn. auto.
  - cbn [Risk.forEach weightsOf].
    destruct (weight e) as [w |] eqn:Hw.
    + destruct (visit_weight t e w Hw) as (t1 & -> & Ht & Hc).
      destruct (IH t1) as (t' & -> & Ht' & Hc').
      exists t'. split; [reflexivity |]. cbn [addAll fold_left length].
      rewrite Ht', Hc', Ht, Hc. split; [reflexivity | lia].
    + destruct (He eq_refl) as [Hk Hl]. destruct e as [k l].
      unfold Risk.visit.
      rewrite (lookup_noweight k l Hw Hk Hl).
      apply IH.
Qed.

(** An entry outside the table, naming nothing inherited, is passed over:
    score, level and breakdown are those of the mapping without it. *)
Lemma assess_skips_unrecognised (clockId clockCreated : Z)
    (u : string) (c : option (string * caseInfo)) (before after : list (string * string))
    (e : string * string) (extra : list string) (d : option string) :
  weight e = None ->
  inherited (fst e) = false ->
  inherited (snd e) = false ->
  verdict (assess clockId clockCreated (mkRequest u c (before ++ e :: after) extra d))
  = verdict (assess clockId clockCreated (mkRequest u c (before ++ after) extra d)).
Proof.
  intros Hw Hk Hl. apply assess_skips_rejected_entry.
  destruct e as [k l]. exact (lookup_noweight k l Hw Hk Hl).
Qed.

(** For a mapping with distinct keys whose entries are in the table or name
    nothing inherited, with [n] recognised entries of total weight [s]
    tenths: the handler completes; with [n = 0] it returns riskScore 0 and
    level low; otherwise riskScore is [k / 100] for an integer [k] within a
    half of [100 * s / (10 n)], that is, the exact mean rounded to two
    decimals; and, unless the exact mean is 0.4 or 0.7, riskLevel is the one
    the specification derives from the exact mean. *)
Lemma assess_valid_mapping (clockId clockCreated : Z) (req : request) (s n : Z) :
  valid (req_factors req) ->
  List.NoDup (map fst (req_factors req)) ->
  recognised (req_factors req) = (s, n) ->
  exists a,
    assess clockId clockCreated req = Completed a
    /\ (n = 0%Z -> riskScore a = 0%float /\ riskLevel a = "low")
    /\ ((0 < n)%Z ->
        exists k,
          (0 < k <= 100)%Z
          /\ riskScore a = (of_uint63 (of_Z k) / 100)%float
          /\ (2 * Z.abs (n * k - 10 * s) <= n)%Z)
    /\ ((0 < n)%Z -> s <> (4 * n)%Z -> s <> (7 * n)%Z ->
        riskLevel a = level_as_specified (req_factors req)).
Proof.
  intros Hv Hnd Hr.
  rewrite recognised_weights in Hr. injection Hr as Hs Hn.
  destruct (forEach_valid (req_factors req) Hv (mkTally 0 0 []))
    as (t & Hfe & Ht & Hc).
  cbn [totalRiskScore factorCount] in Ht, Hc.
  pose proof (average_valid (req_factors req) t Ht Hc) as Havg.
  pose proof (sweep_sound agrees 5 [] (weightsOf (req_factors req)) sweep_agrees
                (weightsOf_table _) (weightsOf_length _ Hnd)) as Hag.
  cbn [app] in Hag.
  rewrite level_as_specified_weights.
  unfold Risk.assess. rewrite Hfe, Havg.
  destruct (levelOf (codeAverage (weightsOf (req_factors req))))
    as [level color] eqn:Hlv.
  eexists. split; [reflexivity |].
  cbn [riskScore riskLevel].
  destruct (weightsOf (req_factors req)) as [| w ws] eqn:Hws.
  - cbn [length] in Hn. subst n. split; [| split]; [| lia | lia].
    intros _. vm_compute in Hlv. injection Hlv as <- <-.
    split; reflexivity.
  - assert (Hpos : (0 < n)%Z) by (subst n; cbn [length]; lia).
    split; [lia |].
    unfold agrees in Hag. fold (total (w :: ws)) in Hag. rewrite Hs, Hn in Hag.
    apply andb_prop in Hag. destruct Hag as [Hround Hlevel].
    destruct (nearestInteger (codeAverage (w :: ws) * 100)) as [k |] eqn:Hk;
      [| discriminate].
    apply andb_prop in Hround. destruct Hround as [Hround H3].
    apply andb_prop in Hround. destruct Hround as [H1 H2].
    apply Z.ltb_lt in H1. apply Z.leb_le in H2, H3.
    split.
    + intros _. exists k. split; [lia |]. split; [| exact H3].
      unfold Math_round. rewrite Hk.
      destruct (Z.eqb_spec k 0); [lia |].
      destruct (Z.ltb_spec k 0); [lia | reflexivity].
    + intros _ H4 H7.
      destruct (Z.eqb_spec s (4 * n)); [contradiction |].
      destruct (Z.eqb_spec s (7 * n)); [contradiction |].
      cbn [orb] in Hlevel. rewrite Hlv in Hlevel. cbn [fst] in Hlevel.
      apply String.eqb_eq in Hlevel. subst s n. exact Hlevel.
Qed.

(** *** The worst case *)

(** Every order in which the five worst-case entries can arrive gives
    the same score, level and recommendations. *)
Lemma worst_case_every_order (clockId clockCreated : Z) (u : string)
    (c : option (string * caseInfo)) (extra : list string) (d : option string) :
  map (fun fs => summary (assess clockId clockCreated (mkRequest u c fs extra d)))
      (permutations worstCase)
  = repeat (Some (0.76%float, "high", allFour)) 120.
Proof. vm_compute. reflexivity. Qed.

(** C6. For case_complexity high, evidence_strength weak,
    opponent_resources extensive, time_constraints urgent and
    financial_impact high, in whatever order the five keys arrive, the
    assessment has riskScore 0.76 (the weights 0.8, 0.7, 0.7, 0.8, 0.8
    sum to 3.8 over 5 factors), riskLevel high, and its recommendations
    are the nine sentences of the escalation, evidence-gathering,
    deadline-management and preparation groups, all four, in that order. *)
Theorem assess_worst_case (clockId clockCreated : Z) (u : string)
    (c : option (string * caseInfo)) (fs : list (string * string))
    (extra : list string) (d : option string) :
  fs ≡ₚ worstCase ->
  recognised worstCase = (38, 5)%Z
  /\ exists a,
       assess clockId clockCreated (mkRequest u c fs extra d) = Completed a
       /\ riskScore a = 0.76%float
       /\ riskLevel a = "high"
       /\ recommendations a
          = [ "Consider seeking experienced legal counsel";
            "Develop a comprehensive case strategy";
            "Allocate additional resources for case preparation";
            "Focus on gathering additional evidence";
            "Consider expert witnesses or testimony";
            "Prioritize critical deadlines";
            "Consider requesting extensions where possible";
            "Prepare for well-funded opposition";
            "Focus on strong legal arguments and precedents" ].
Proof.
  intros Hp. split; [reflexivity |].
  symmetry in Hp. apply permutations_Permutation, list_elem_of_In in Hp.
  apply (in_map (fun fs => summary
                   (assess clockId clockCreated (mkRequest u c fs extra d)))) in Hp.
  rewrite worst_case_every_order in Hp. apply repeat_spec in Hp.
  destruct (assess clockId clockCreated (mkRequest u c fs extra d)) as [a |];
    [| discriminate].
  exists a. cbn in Hp. injection Hp as Hs Hl Hr.
  split; [reflexivity |]. split; [exact Hs |]. split; [exact Hl |].
  rewrite Hr. reflexivity.
Qed.
(** *** A mean that sits on a threshold *)

(** C2, at one valid input.  For case_complexity medium,
    evidence_strength weak, opponent_resources limited, time_constraints
    tight, financial_impact low the weights are 0.5, 0.7, 0.2, 0.4, 0.2:
    they sum to 2.0 and their mean is exactly 0.4, which the
    specification places at level medium.  The handler adds them as
    binary64 numbers, obtains a mean of 0.39999999999999997, and returns
    riskScore 0.4 together with riskLevel low. *)
Theorem assess_borderline_level (clockId clockCreated : Z) (u : string)
    (c : option (string * caseInfo)) (extra : list string) (d : option string) :
  recognised borderline = (20, 5)%Z
  /\ level_as_specified borderline = "medium"
  /\ exists t a,
       forEach (mkTally 0 0 []) borderline = Some t
       /\ averageRiskScore t = 0.39999999999999997%float
       /\ assess clockId clockCreated (mkRequest u c borderline extra d)
          = Completed a
       /\ riskScore a = 0.4%float
       /\ riskLevel a = "low".
Proof.
  split; [reflexivity |]. split; [reflexivity |].
  eexists. eexists.
  split; [vm_compute; reflexivity |].
  split; [vm_compute; reflexivity |].
  split; [reflexivity |].
  split; vm_compute; reflexivity.
Qed.

(** Among the 243 mappings with one valid label per key, in the table's key
    order, this is the only one whose level differs from the specified
    one. *)
Lemma borderline_alone :
  List.filter
    (fun fs =>
       match verdict (assess 0 0 (mkRequest "" None fs [] None)) with
       | Some (_, level, _) => negb (String.eqb level (level_as_specified fs))
       | None => true
       end)
    canonicalInputs
  = [ borderline ].
Proof. vm_compute. reflexivity. Qed.

(** *** A key that names an inherited property *)

(** C7, at one input the route accepts.  The five required entries
    followed by an extra entry [constructor: 'constructor'], which names
    no row of the table: [riskFactors['constructor']] is the inherited
    function [Object] and [Object['constructor']] is truthy, so the entry
    is counted.  Its [score] is [undefined]: the total becomes NaN, the
    riskScore NaN, the level low, and the breakdown gains a line for it.
    Without the entry the assessment is 0.76 and high. *)
Theorem assess_counts_inherited_key (clockId clockCreated : Z) (u : string)
    (c : option (string * caseInfo)) (extra : list string) (d : option string) :
  weight ("constructor", "constructor") = None
  /\ verdict (assess clockId clockCreated (mkRequest u c worstCase extra d))
     = Some (0.76%float, "high", worstCaseBreakdown)
  /\ verdict (assess clockId clockCreated
                (mkRequest u c (worstCase ++ [ ("constructor", "constructor") ])%list
                   extra d))
     = Some (nan, "low",
             (worstCaseBreakdown
              ++ [ ("constructor", mkDetail "constructor" None None) ])%list).
Proof.
  split; [reflexivity |]. split; vm_compute; reflexivity.
Qed.

(** *** The clock *)

(** The scoring step alone, given the case it was handed: two runs on the
    same request agree on every field of the assessment except [id] and
    [createdAt], which copy the clock of each run; and either both runs
    complete or both fail. *)
Theorem assess_scoring_deterministic (clockId clockCreated clockId'
    clockCreated' : Z) (req : request) :
  match assess clockId clockCreated req, assess clockId' clockCreated' req with
  | Completed a, Completed b =>
      scoring a = scoring b
      /\ id a = decimal clockId /\ createdAt a = clockCreated
      /\ id b = decimal clockId' /\ createdAt b = clockCreated'
  | Failed, Failed => True
  | _, _ => False
  end.
Proof.
  unfold Risk.assess.
  destruct (forEach (mkTally 0 0 []) (req_factors req)) as [t |]; [| exact I].
  destruct (levelOf (averageRiskScore t)) as [level color].
  cbn. auto.
Qed.

End Engine.

Lemma assess_worst_case_witness :
  recognised worstCase = (38, 5)%Z
  /\ exists a,
       assess bareEngine 1700000000000 1700000000001
         (mkRequest "u1" None worstCase [] None) = Completed a
       /\ riskScore a = 0.76%float
       /\ riskLevel a = "high"
       /\ recommendations a
          = [ "Consider seeking experienced legal counsel";
            "Develop a comprehensive case strategy";
            "Allocate additional resources for case preparation";
            "Focus on gathering additional evidence";
            "Consider expert witnesses or testimony";
            "Prioritize critical deadlines";
            "Consider requesting extensions where possible";
            "Prepare for well-funded opposition";
            "Focus on strong legal arguments and precedents" ].
Proof.
  apply (assess_worst_case bareEngine 1700000000000 1700000000001 "u1" None
           worstCase [] None).
  reflexivity.
Defined.

(** Two runs on one request, a second apart: the assessments differ. *)
Lemma assess_depends_on_clock :
  assess bareEngine 1700000000000 1700000000000
    (mkRequest "u1" None worstCase [] None)
  <> assess bareEngine 1700000001000 1700000001000
       (mkRequest "u1" None worstCase [] None).
Proof.
  intros H.
  apply (f_equal (fun r => match r with
                           | Completed a => createdAt a
                           | Failed => 0%Z
                           end)) in H.
  vm_compute in H. discriminate H.
Qed.

End RiskSpec.

(** ** The gates in a chain *)
Module GatesSpec.
Import Js Auth Gates.

Definition adminRequired : response :=
  mkResponse 403 [ ("message", FStr "Admin access required");
                   ("code", FStr "ADMIN_REQUIRED") ].

Section Verification.
Variable jwtVerify : string -> verified.
Variable findById : option string -> lookup.

(** optionalAuth sets [req.user] exactly when authenticateToken would attach
    that user; in every other case, where authenticateToken answers 401 or
    500, it goes on with no user. *)
Theorem optionalAuth_agrees_with_authenticateToken
    (authHeader : option string) (u : user) :
  optionalAuth jwtVerify findById authHeader = Some u
  <-> authenticateToken jwtVerify findById authHeader = Attached u.
Proof.
  unfold optionalAuth, authenticateToken, onError, reject.
  destruct (bearerToken authHeader) as [token |]; [| split; discriminate].
  destruct (jwtVerify token) as [uid | e].
  - destruct (findById uid) as [u' | | e].
    + destruct (isActive u'); split; intros H; try discriminate H;
        injection H as <-; reflexivity.
    + split; discriminate.
    + repeat match goal with |- context [if ?b then _ else _] => destruct b end;
        split; discriminate.
  - repeat match goal with |- context [if ?b then _ else _] => destruct b end;
      split; discriminate.
Qed.

Lemma optionalAuth_active (authHeader : option string) (u : user) :
  optionalAuth jwtVerify findById authHeader = Some u -> isActive u = true.
Proof.
  unfold optionalAuth.
  destruct (bearerToken authHeader) as [token |]; [| discriminate].
  destruct (jwtVerify token) as [uid | e]; [| discriminate].
  destruct (findById uid) as [u' | | e]; try discriminate.
  destruct (isActive u') eqn:Ha; [| discriminate].
  intros [= <-]. exact Ha.
Qed.

(** Every way authenticateToken can end: the user attached, or one of four
    answers; the 500 exactly when the verifier or the store throws an error
    named neither TokenExpiredError nor JsonWebTokenError. *)
Theorem authenticateToken_outcomes (authHeader : option string) :
  (exists u, authenticateToken jwtVerify findById authHeader = Attached u
             /\ isActive u = true)
  \/ (exists c,
        code (authenticateToken jwtVerify findById authHeader) = Some c
        /\ ((http_status (authenticateToken jwtVerify findById authHeader)
               = Some 401%Z
             /\ In c [ "TOKEN_REQUIRED"; "TOKEN_EXPIRED"; "INVALID_TOKEN" ])
            \/ (http_status (authenticateToken jwtVerify findById authHeader)
                  = Some 500%Z
                /\ c = "TOKEN_VERIFICATION_FAILED"
                /\ exists token e,
                     bearerToken authHeader = Some token
                     /\ e <> "TokenExpiredError" /\ e <> "JsonWebTokenError"
                     /\ (jwtVerify token = VerifyThrows e
                         \/ exists uid, jwtVerify token = Decoded uid
                                        /\ findById uid = LookupThrows e)))).
Proof.
  unfold authenticateToken.
  destruct (bearerToken authHeader) as [token |].
  2:{ right. exists "TOKEN_REQUIRED". split; [reflexivity |]. left.
      split; [reflexivity | simpl; tauto]. }
  assert (Herr : forall e,
            (jwtVerify token = VerifyThrows e
             \/ exists uid, jwtVerify token = Decoded uid
                            /\ findById uid = LookupThrows e) ->
            exists c, code (onError e) = Some c
              /\ ((http_status (onError e) = Some 401%Z
                   /\ In c [ "TOKEN_REQUIRED"; "TOKEN_EXPIRED"; "INVALID_TOKEN" ])
                  \/ (http_status (onError e) = Some 500%Z
                      /\ c = "TOKEN_VERIFICATION_FAILED"
                      /\ exists token' e',
                           Some token = Some token'
                           /\ e' <> "TokenExpiredError" /\ e' <> "JsonWebTokenError"
                           /\ (jwtVerify token' = VerifyThrows e'
                               \/ exists uid, jwtVerify token' = Decoded uid
                                              /\ findById uid = LookupThrows e')))).
  { intros e He. unfold onError.
    destruct (String.eqb_spec e "TokenExpiredError") as [-> | H1].
    - exists "TOKEN_EXPIRED". split; [reflexivity |]. left.
      split; [reflexivity | simpl; tauto].
    - destruct (String.eqb_spec e "JsonWebTokenError") as [-> | H2].
      + exists "INVALID_TOKEN". split; [reflexivity |]. left.
        split; [reflexivity | simpl; tauto].
      + exists "TOKEN_VERIFICATION_FAILED". split; [reflexivity |]. right.
        split; [reflexivity |]. split; [reflexivity |].
        exists token, e. auto. }
  destruct (jwtVerify token) as [uid | e] eqn:Hv.
  - destruct (findById uid) as [u | | e] eqn:Hl.
    + destruct (isActive u) eqn:Ha.
      * left. exists u. auto.
      * right. exists "INVALID_TOKEN". split; [reflexivity |]. left.
        split; [reflexivity | simpl; tauto].
    + right. exists "INVALID_TOKEN". split; [reflexivity |]. left.
      split; [reflexivity | simpl; tauto].
    + right. apply Herr. right. exists uid. auto.
  - right. apply Herr. left. reflexivity.
Qed.

(** Behind authenticateToken, requireAdmin lets through exactly the verified,
    active users whose role is the string admin; it answers 403
    ADMIN_REQUIRED to every other verified user, and the chain never
    throws. *)
Theorem adminRoute_admits_admins_only (authHeader : option string) :
  (forall reqUser,
     adminRoute jwtVerify findById authHeader = Reached reqUser <->
     exists u, reqUser = Some u
               /\ authenticateToken jwtVerify findById authHeader = Attached u
               /\ role u = "admin")
  /\ (adminRoute jwtVerify findById authHeader = Answered adminRequired <->
      exists u, authenticateToken jwtVerify findById authHeader = Attached u
                /\ role u <> "admin")
  /\ (forall e, adminRoute jwtVerify findById authHeader <> Crashed e).
Proof.
  unfold adminRoute.
  destruct (authenticateToken jwtVerify findById authHeader) as [u | r] eqn:Ha.
  - unfold requireAdmin, after. fold adminRequired.
    destruct (String.eqb_spec (role u) "admin") as [Hr | Hr]; cbn [negb].
    + split; [| split].
      * intros reqUser. split.
        -- intros [= <-]. exists u. auto.
        -- intros (u' & -> & [= <-] & _). reflexivity.
      * split; [discriminate |]. intros (u' & [= <-] & Hn). contradiction.
      * discriminate.
    + split; [| split].
      * intros reqUser. split; [discriminate |].
        intros (u' & _ & [= <-] & Hn). contradiction.
      * split; [| reflexivity]. intros _. exists u. auto.
      * discriminate.
  - split; [| split].
    + intros reqUser. split; [discriminate |]. intros (u' & _ & [=] & _).
    + split.
      * intros [= ->]. exfalso.
        revert Ha. unfold authenticateToken, onError, reject.
        repeat match goal with
               | |- context [match ?x with _ => _ end] => destruct x
               end; discriminate.
      * intros (u' & [=] & _).
    + discriminate.
Qed.
End Verification.

End GatesSpec.

(** ** The rate limiter over a run of requests *)
Module TrafficSpec.
Import Js RateLimit Traffic RateLimitSpec.
Local Open Scope Z_scope.

(** A map holding one request of user u1, made at 1000. *)
Definition oneRequest : gmap string (list Z) := {[ "u1" := [ 1000 ] ]}.

Lemma recent_recent (c now : Z) (history : list Z) :
  c <= now -> recent now (recent c history) = recent now history.
Proof.
  intros Hc. unfold recent. induction history as [| t l IH]; simpl; [reflexivity |].
  destruct (Z.ltb_spec c t); simpl.
  - rewrite IH. reflexivity.
  - destruct (Z.ltb_spec now t); [lia | exact IH].
Qed.

Lemma recent_app (windowStart : Z) (l1 l2 : list Z) :
  recent windowStart (l1 ++ l2) = (recent windowStart l1 ++ recent windowStart l2)%list.
Proof. unfold recent. apply List.filter_app. Qed.

Lemma filter_length_le {A : Type} (p q : A -> bool) (l : list A) :
  (forall x, In x l -> p x = true -> q x = true) ->
  (length (List.filter p l) <= length (List.filter q l))%nat.
Proof.
  induction l as [| x l IH]; intros H; simpl; [lia |].
  assert (IH' : (length (List.filter p l) <= length (List.filter q l))%nat).
  { apply IH. intros y Hy. apply H. right. exact Hy. }
  destruct (p x) eqn:Hp.
  - rewrite (H x (or_introl eq_refl) Hp). simpl. lia.
  - destruct (q x); simpl; lia.
Qed.

Lemma serve_cons (maxRequests windowMs : Z) (userRequests : gmap string (list Z))
    (userId : string) (now : Z) (later : list Z) :
  serve maxRequests windowMs userRequests userId (now :: later)
  = (fst (userRateLimit maxRequests windowMs userRequests userId now)
       :: fst (serve maxRequests windowMs
                 (snd (userRateLimit maxRequests windowMs userRequests userId now))
                 userId later),
     snd (serve maxRequests windowMs
            (snd (userRateLimit maxRequests windowMs userRequests userId now))
            userId later)).
Proof.
  cbn [serve].
  destruct (userRateLimit maxRequests windowMs userRequests userId now) as [o m].
  cbn [fst snd].
  destruct (serve maxRequests windowMs m userId later) as [os m']. reflexivity.
Qed.

Lemma serveAll_cons (maxRequests windowMs : Z) (userRequests : gmap string (list Z))
    (userId : string) (now : Z) (later : list (string * Z)) :
  serveAll maxRequests windowMs userRequests ((userId, now) :: later)
  = (fst (userRateLimit maxRequests windowMs userRequests userId now)
       :: fst (serveAll maxRequests windowMs
                 (snd (userRateLimit maxRequests windowMs userRequests userId now))
                 later),
     snd (serveAll maxRequests windowMs
            (snd (userRateLimit maxRequests windowMs userRequests userId now))
            later)).
Proof.
  cbn [serveAll].
  destruct (userRateLimit maxRequests windowMs userRequests userId now) as [o m].
  cbn [fst snd].
  destruct (serveAll maxRequests windowMs m later) as [os m']. reflexivity.
Qed.

(** *** The stored window never outgrows the limit *)

Lemma userRateLimit_bounded (maxRequests windowMs : Z)
    (userRequests : gmap string (list Z)) (userId : string) (now : Z) (u : string) :
  Z.of_nat (length (default [] (userRequests !! u))) <= Z.max 0 maxRequests ->
  Z.of_nat (length (default []
     (snd (userRateLimit maxRequests windowMs userRequests userId now) !! u)))
  <= Z.max 0 maxRequests.
Proof.
  intros Hb. unfold userRateLimit. cbv zeta.
  destruct (Z.leb_spec maxRequests
              (Z.of_nat (length (recent (now - windowMs)
                                   (default [] (userRequests !! userId))))))
    as [Hfull | Hroom]; cbn [snd]; [exact Hb |].
  destruct (String.eqb_spec userId u) as [<- | Hne].
  - rewrite lookup_insert_eq. cbn. rewrite length_app. cbn [length]. lia.
  - rewrite lookup_insert_ne by exact Hne. exact Hb.
Qed.

(** Whatever the traffic, no user's stored window ever holds more than
    [maxRequests] timestamps (none at all when [maxRequests] is not
    positive). *)
Theorem serveAll_window_bounded (maxRequests windowMs : Z)
    (requests : list (string * Z)) (u : string) :
  Z.of_nat (length (default []
     (snd (serveAll maxRequests windowMs ∅ requests) !! u)))
  <= Z.max 0 maxRequests.
Proof.
  assert (G : forall (m : gmap string (list Z)),
            (forall v, Z.of_nat (length (default [] (m !! v))) <= Z.max 0 maxRequests) ->
            forall v, Z.of_nat (length (default []
               (snd (serveAll maxRequests windowMs m requests) !! v)))
                      <= Z.max 0 maxRequests).
  { induction requests as [| [userId now] later IH]; intros m Hm v.
    - apply Hm.
    - rewrite serveAll_cons. cbn [snd]. apply IH.
      intros v'. apply userRateLimit_bounded, Hm. }
  apply G. intros v. rewrite lookup_empty. cbn. lia.
Qed.

(** *** What the limiter guarantees *)

Definition countIn (t windowMs : Z) (admitted : list Z) : Z :=
  Z.of_nat (length (List.filter (inWindow t windowMs) admitted)).

Lemma countIn_app (t windowMs : Z) (l1 l2 : list Z) :
  countIn t windowMs (l1 ++ l2) = countIn t windowMs l1 + countIn t windowMs l2.
Proof. unfold countIn. rewrite List.filter_app, List.length_app. lia. Qed.

Lemma admittedTimes_cons (now : Z) (later : list Z) (o : outcome)
    (os : list outcome) :
  admittedTimes (now :: later) (o :: os)
  = if proceeds o then now :: admittedTimes later os else admittedTimes later os.
Proof. unfold admittedTimes. cbn. destruct (proceeds o); reflexivity. Qed.

Lemma serve_window_invariant (maxRequests windowMs : Z) (userId : string) :
  0 < windowMs ->
  forall (clock : list Z) (userRequests : gmap string (list Z))
         (admitted : list Z) (c : Z),
    StronglySorted Z.le clock ->
    Forall (fun now => c <= now) clock ->
    default [] (userRequests !! userId) = recent (c - windowMs) admitted ->
    Forall (fun a => a <= c) admitted ->
    (forall t, countIn t windowMs admitted <= Z.max 0 maxRequests) ->
    forall t,
      countIn t windowMs
        (admitted ++ admittedTimes clock
                       (fst (serve maxRequests windowMs userRequests userId clock)))
      <= Z.max 0 maxRequests.
Proof.
  intros Hw clock.
  induction clock as [| now later IH];
    intros userRequests admitted c Hsorted Hc Hstored Hle Hcount t.
  - cbn [serve fst]. unfold admittedTimes. cbn [combine List.filter map].
    rewrite app_nil_r. apply Hcount.
  - apply StronglySorted_inv in Hsorted. destruct Hsorted as [Hsorted Hnow].
    apply Forall_cons_iff in Hc. destruct Hc as [Hcnow Hc].
    rewrite serve_cons. cbn [fst]. rewrite admittedTimes_cons.
    assert (Hkept : recent (now - windowMs) (default [] (userRequests !! userId))
                    = recent (now - windowMs) admitted).
    { rewrite Hstored. apply recent_recent. lia. }
    destruct (Z.leb_spec maxRequests
                (Z.of_nat (length (recent (now - windowMs) admitted))))
      as [Hfull | Hroom].
    + rewrite userRateLimit_reject by (rewrite Hkept; exact Hfull).
      cbn [fst snd proceeds].
      apply (IH userRequests admitted c); auto.
    + rewrite userRateLimit_admit by (rewrite Hkept; exact Hroom).
      cbn [fst snd proceeds]. rewrite Hkept.
      change (admitted ++ now :: ?l)%list with (admitted ++ [ now ] ++ l)%list.
      rewrite app_assoc.
      apply (IH _ (admitted ++ [ now ])%list now); [exact Hsorted | exact Hnow | | |].
      * rewrite lookup_insert_eq. cbn [default from_option id].
        rewrite recent_app. f_equal.
        unfold recent. cbn. destruct (Z.ltb_spec (now - windowMs) now); [reflexivity | lia].
      * apply Forall_app. split.
        -- rewrite List.Forall_forall in *. intros a Ha. specialize (Hle a Ha). lia.
        -- constructor; [lia | constructor].
      * intros t'. rewrite countIn_app.
        unfold countIn at 2. cbn [List.filter].
        destruct (inWindow t' windowMs now) eqn:Hin; cbn [length].
        -- unfold inWindow in Hin. apply andb_prop in Hin. destruct Hin as [H1 H2].
           apply Z.ltb_lt in H1. apply Z.leb_le in H2.
           assert (Hsub : (length (List.filter (inWindow t' windowMs) admitted)
                           <= length (recent (now - windowMs) admitted))%nat).
           { unfold recent. apply filter_length_le. intros a _ Ha.
             unfold inWindow in Ha. apply andb_prop in Ha. destruct Ha as [Ha _].
             apply Z.ltb_lt in Ha. apply Z.ltb_lt. lia. }
           unfold countIn. lia.
        -- specialize (Hcount t'). lia.
Qed.

(** With a positive window and a clock that never runs backwards, a user
    who starts with nothing stored is never let through more than
    [maxRequests] times within any span of [windowMs] milliseconds. *)
Theorem serve_never_exceeds (maxRequests windowMs : Z)
    (userRequests : gmap string (list Z)) (userId : string) (clock : list Z)
    (t : Z) :
  0 < windowMs ->
  StronglySorted Z.le clock ->
  default [] (userRequests !! userId) = [] ->
  countIn t windowMs
    (admittedTimes clock (fst (serve maxRequests windowMs userRequests userId clock)))
  <= Z.max 0 maxRequests.
Proof.
  intros Hw Hsorted Hempty.
  destruct clock as [| first later].
  - change (0 <= Z.max 0 maxRequests). lia.
  - apply (serve_window_invariant maxRequests windowMs userId Hw
             (first :: later) userRequests [] first);
      [exact Hsorted | | exact Hempty | constructor |].
    + constructor; [lia |].
      apply StronglySorted_inv in Hsorted. tauto.
    + intros t'. change (0 <= Z.max 0 maxRequests). lia.
Qed.

Lemma serve_never_exceeds_witness :
  countIn 61000 60000
    (admittedTimes [ 1000; 2000; 5000; 9000; 61000; 61500 ]
       (fst (serve 3 60000 ∅ "u1" [ 1000; 2000; 5000; 9000; 61000; 61500 ])))
  <= Z.max 0 3.
Proof.
  apply (serve_never_exceeds 3 60000 ∅ "u1"
           [ 1000; 2000; 5000; 9000; 61000; 61500 ] 61000).
  - lia.
  - repeat constructor; lia.
  - reflexivity.
Defined.

(** *** What [retryAfter] promises *)

Lemma recent_drops (windowStart t0 : Z) (history : list Z) :
  In t0 history -> t0 <= windowStart ->
  (length (recent windowStart history) < length history)%nat.
Proof.
  unfold recent. induction history as [| t l IH]; intros Hin Hle; [destruct Hin |].
  simpl. destruct Hin as [-> | Hin].
  - destruct (Z.ltb_spec windowStart t0); [lia |].
    pose proof (recent_length windowStart l) as Hl. unfold recent in Hl. lia.
  - specialize (IH Hin Hle). destruct (windowStart <? t); simpl; lia.
Qed.

(** A user told to retry after [seconds] who does so, with nothing of theirs
    admitted in between, is let through: provided the stored window holds at
    most [maxRequests] timestamps, as it does on every state the middleware
    reaches. *)
Theorem retryAfter_is_enough (maxRequests windowMs : Z)
    (userRequests : gmap string (list Z)) (userId : string) (now later : Z)
    (r : response) (seconds : Z) :
  Z.of_nat (length (default [] (userRequests !! userId))) <= maxRequests ->
  fst (userRateLimit maxRequests windowMs userRequests userId now) = Respond r ->
  assoc "retryAfter" (body r) = Some (FNum seconds) ->
  now + 1000 * seconds <= later ->
  userRateLimit maxRequests windowMs
    (snd (userRateLimit maxRequests windowMs userRequests userId now)) userId later
  = (Next,
     <[ userId := (recent (later - windowMs) (default [] (userRequests !! userId))
                   ++ [ later ])%list ]> userRequests).
Proof.
  intros Hb Hrej Hretry Hlater.
  assert (Hsame : snd (userRateLimit maxRequests windowMs userRequests userId now)
                  = userRequests).
  { revert Hrej. unfold userRateLimit. cbv zeta.
    destruct (maxRequests <=? _); cbn; [reflexivity | discriminate]. }
  rewrite Hsame.
  apply userRateLimit_admit.
  revert Hrej. unfold userRateLimit. cbv zeta.
  destruct (maxRequests <=? _); cbn [fst]; [| discriminate].
  intros [= <-]. cbn in Hretry.
  destruct (recent (now - windowMs) (default [] (userRequests !! userId)))
    as [| first rest] eqn:Hk; cbn in Hretry; [discriminate |].
  injection Hretry as Hs.
  apply ceil_div_spec in Hs.
  assert (Hin : In first (default [] (userRequests !! userId))).
  { assert (H : In first (recent (now - windowMs)
                            (default [] (userRequests !! userId))))
      by (rewrite Hk; left; reflexivity).
    apply recent_In in H. tauto. }
  pose proof (recent_drops (later - windowMs) first _ Hin) as Hd.
  assert (first <= later - windowMs) by lia.
  specialize (Hd H). lia.
Qed.

Lemma retryAfter_is_enough_witness :
  userRateLimit 1 60000
    (snd (userRateLimit 1 60000 oneRequest "u1" 2000)) "u1" 61000
  = (Next,
     <[ "u1" := (recent (61000 - 60000) (default [] (oneRequest !! "u1"))
                 ++ [ 61000 ])%list ]> oneRequest).
Proof.
  apply (retryAfter_is_enough 1 60000 oneRequest "u1" 2000 61000
           (tooMany [ 1000 ] 60000 2000) 59).
  - vm_compute. discriminate.
  - reflexivity.
  - reflexivity.
  - lia.
Defined.

(** *** Users do not affect one another *)

Lemma userRateLimit_own_window (maxRequests windowMs : Z)
    (m1 m2 : gmap string (list Z)) (userId : string) (now : Z) :
  m1 !! userId = m2 !! userId ->
  fst (userRateLimit maxRequests windowMs m1 userId now)
  = fst (userRateLimit maxRequests windowMs m2 userId now)
  /\ snd (userRateLimit maxRequests windowMs m1 userId now) !! userId
     = snd (userRateLimit maxRequests windowMs m2 userId now) !! userId.
Proof.
  intros H. unfold userRateLimit. cbv zeta. rewrite H.
  destruct (maxRequests <=? _); cbn [fst snd]; [auto |].
  rewrite !lookup_insert_eq. auto.
Qed.

(** Each user is served as if alone: what a user's requests meet in mixed
    traffic is what they would meet with every other user's requests
    removed. *)
Theorem serveAll_isolates_users (maxRequests windowMs : Z)
    (requests : list (string * Z)) (u : string) :
  forall m1 m2 : gmap string (list Z),
    m1 !! u = m2 !! u ->
    outcomesOf u requests (fst (serveAll maxRequests windowMs m1 requests))
    = fst (serve maxRequests windowMs m2 u (requestsOf u requests)).
Proof.
  induction requests as [| [userId now] later IH]; intros m1 m2 Hm.
  - reflexivity.
  - rewrite serveAll_cons. cbn [fst].
    unfold outcomesOf, requestsOf. cbn [combine List.filter fst snd map].
    destruct (String.eqb_spec userId u) as [-> | Hne].
    + cbn [map snd]. rewrite serve_cons. cbn [fst].
      destruct (userRateLimit_own_window maxRequests windowMs m1 m2 u now Hm)
        as [Ho Hs].
      rewrite Ho. f_equal. apply IH. exact Hs.
    + apply IH.
      rewrite userRateLimit_other_users by congruence. exact Hm.
Qed.

Lemma serveAll_isolates_users_witness :
  outcomesOf "u1" [ ("u1", 1000); ("u2", 1500); ("u1", 2000) ]
    (fst (serveAll 1 60000 ∅ [ ("u1", 1000); ("u2", 1500); ("u1", 2000) ]))
  = fst (serve 1 60000 ∅ "u1" (requestsOf "u1" [ ("u1", 1000); ("u2", 1500); ("u1", 2000) ])).
Proof.
  apply (serveAll_isolates_users 1 60000
           [ ("u1", 1000); ("u2", 1500); ("u1", 2000) ] "u1" ∅ ∅).
  reflexivity.
Defined.

End TrafficSpec.

(** ** Subscription gate: requests that always pass *)
Module SubscriptionGateSpec.
Import Js Subscription SubscriptionSpec.

(** [requireSubscription()]: the parameter's default. *)
Definition defaultLevel : string := "free".

(** The gate lets the request through in three situations, whatever else
    holds, inherited plan names included: the required level is the default
    [free]; the user's plan is [enterprise]; the required level is a name
    outside the table and outside [Object.prototype] (a misspelt level
    guards nothing). *)
Theorem requireSubscription_open_gate (requiredLevel userPlan : string) :
  requiredLevel = defaultLevel
  \/ userPlan = "enterprise"
  \/ (assoc requiredLevel subscriptionLevels = None
      /\ inherited requiredLevel = false) ->
  requireSubscription requiredLevel userPlan = Next.
Proof.
  intros H. unfold requireSubscription.
  assert (Hle : lessThan (levelOf userPlan) (levelOf requiredLevel) = false).
  { destruct H as [-> | [-> | [Hnone Hinh]]].
    - change (levelOf defaultLevel) with (LNum 1).
      destruct (levelOf_cases userPlan) as [[_ ->] | [_ [-> _]]]; [| reflexivity].
      cbn [lessThan]. apply Z.ltb_ge. apply ordinal_range.
    - change (levelOf "enterprise") with (LNum 3).
      destruct (levelOf_cases requiredLevel) as [[_ ->] | [_ [-> _]]]; [| reflexivity].
      cbn [lessThan]. apply Z.ltb_ge. apply ordinal_range.
    - unfold levelOf at 2. rewrite Hnone, Hinh.
      destruct (levelOf_cases userPlan) as [[_ ->] | [_ [-> _]]]; [| reflexivity].
      cbn [lessThan]. apply Z.ltb_ge. apply ordinal_range. }
  rewrite Hle. reflexivity.
Qed.

Lemma requireSubscription_open_gate_witness :
  requireSubscription "Premium" "free" = Next.
Proof.
  apply (requireSubscription_open_gate "Premium" "free").
  right. right. split; reflexivity.
Defined.

End SubscriptionGateSpec.

(** ** Validated risk assessments and the template *)
Module RiskRouteSpec.
Import Js Risk RiskSpec RiskRoute.

(** A [factors] mapping that passed the route's validators and has no key
    named after a member of [Object.prototype]: its keys are distinct (it
    is an object), each of the five factors is present with one of the
    accepted labels, and no further key is an inherited name. *)
Definition validated (fs : list (string * string)) : Prop :=
  List.NoDup (map fst fs)
  /\ (forall key choices, In (key, choices) factorChoices ->
        exists label, In (key, label) fs /\ In label choices)
  /\ (forall e, In e fs -> assoc (fst e) riskFactors = None ->
        inherited (fst e) = false).

Definition mildest : list (string * string) :=
  [ ("financial_impact", "low"); ("note", "constructor");
    ("time_constraints", "adequate"); ("opponent_resources", "limited");
    ("evidence_strength", "strong"); ("case_complexity", "low") ].

Lemma assoc_In {A : Type} (k : string) (v : A) (o : list (string * A)) :
  assoc k o = Some v -> In (k, v) o.
Proof.
  induction o as [| [k' v'] o IH]; [discriminate |].
  cbn [assoc]. destruct (String.eqb_spec k k') as [-> | _].
  - intros [= ->]. left. reflexivity.
  - intros H. right. exact (IH H).
Qed.

Lemma In_assoc {A : Type} (k : string) (v : A) (o : list (string * A)) :
  List.NoDup (map fst o) -> In (k, v) o -> assoc k o = Some v.
Proof.
  induction o as [| [k' v'] o IH]; [intros _ [] |].
  cbn [map fst assoc]. intros Hnd. apply List.NoDup_cons_iff in Hnd.
  destruct Hnd as [Hne Hnd]. intros [[= -> ->] | Hin].
  - rewrite String.eqb_refl. reflexivity.
  - destruct (String.eqb_spec k k') as [-> | _]; [| exact (IH Hnd Hin)].
    exfalso. apply Hne. apply (in_map fst) in Hin. exact Hin.
Qed.

Lemma choice_weight (key label : string) (choices : list string) :
  In (key, choices) factorChoices -> In label choices ->
  exists w, weight (key, label) = Some w.
Proof.
  intros Hk Hl. cbn in Hk.
  repeat (destruct Hk as [Hk | Hk]; [injection Hk as <- <-;
    cbn in Hl; repeat (destruct Hl as [<- | Hl]; [eexists; reflexivity |]);
    contradiction |]).
  contradiction.
Qed.

Lemma key_choices (key : string) (row : list (string * factor)) :
  assoc key riskFactors = Some row ->
  exists choices, In (key, choices) factorChoices.
Proof.
  unfold riskFactors, factorChoices. cbn [assoc].
  destruct (String.eqb_spec key "case_complexity") as [-> | _];
    [intros _; eexists; cbn; eauto |].
  destruct (String.eqb_spec key "evidence_strength") as [-> | _];
    [intros _; eexists; cbn; eauto |].
  destruct (String.eqb_spec key "opponent_resources") as [-> | _];
    [intros _; eexists; cbn; eauto |].
  destruct (String.eqb_spec key "time_constraints") as [-> | _];
    [intros _; eexists; cbn; eauto 6 |].
  destruct (String.eqb_spec key "financial_impact") as [-> | _];
    [intros _; eexists; cbn; eauto 7 |].
  discriminate.
Qed.

Lemma keysOf_In (fs : list (string * string)) (k l : string) (w : Z) :
  In (k, l) fs -> weight (k, l) = Some w -> In k (keysOf fs).
Proof.
  induction fs as [| e fs IH]; [intros [] |].
  intros [-> | Hin] Hw; cbn [keysOf].
  - rewrite Hw. left. reflexivity.
  - destruct (weight e); [right |]; exact (IH Hin Hw).
Qed.

Lemma same_key_same_label (fs : list (string * string)) (k l l' : string) :
  List.NoDup (map fst fs) -> In (k, l) fs -> In (k, l') fs -> l = l'.
Proof.
  intros Hnd H1 H2.
  pose proof (In_assoc k l fs Hnd H1) as E1.
  pose proof (In_assoc k l' fs Hnd H2) as E2.
  congruence.
Qed.

(** A validated mapping holds exactly five recognised entries. *)
Lemma validated_five (fs : list (string * string)) :
  validated fs -> length (weightsOf fs) = 5%nat.
Proof.
  intros (Hnd & Hall & _).
  apply Nat.le_antisymm; [exact (weightsOf_length fs Hnd) |].
  rewrite keysOf_length.
  change 5%nat with (length (map fst factorChoices)).
  apply List.NoDup_incl_length.
  - cbn. repeat (constructor; [cbn; intuition discriminate |]). constructor.
  - intros k Hk. apply in_map_iff in Hk. destruct Hk as ([k' ch] & <- & Hin).
    destruct (Hall k' ch Hin) as (l & Hl & Hc).
    destruct (choice_weight k' l ch Hin Hc) as (w & Hw).
    exact (keysOf_In fs k' l w Hl Hw).
Qed.

Section Engine.
Variable builtinOwn : string -> string -> truth.

(** The loop over a mapping whose unrecognised entries are all passed
    over adds up the recognised weights. *)
Lemma forEach_recognised (fs : list (string * string)) :
  Forall (fun e => weight e = None ->
                   lookup builtinOwn (fst e) (snd e) = Skipped) fs ->
  forall t, exists t',
    forEach builtinOwn t fs = Some t'
    /\ totalRiskScore t' = addAll (weightsOf fs) (totalRiskScore t)
    /\ factorCount t' = (factorCount t + length (weightsOf fs))%nat.
Proof.
  induction 1 as [| e fs He _ IH]; intros t.
  - exists t. cbn. auto.
  - cbn [Risk.forEach weightsOf].
    destruct (weight e) as [w |] eqn:Hw.
    + destruct (visit_weight builtinOwn t e w Hw) as (t1 & -> & Ht & Hc).
      destruct (IH t1) as (t' & -> & Ht' & Hc').
      exists t'. split; [reflexivity |]. cbn [addAll fold_left length].
      rewrite Ht', Hc', Ht, Hc. split; [reflexivity | lia].
    + rewrite (visit_skipped builtinOwn t e (He eq_refl)). apply IH.
Qed.

Lemma validated_passes (fs : list (string * string)) :
  validated fs ->
  Forall (fun e => weight e = None ->
                   lookup builtinOwn (fst e) (snd e) = Skipped) fs.
Proof.
  intros (Hnd & Hall & Hother). apply List.Forall_forall.
  intros [k l] Hin Hw. cbn [fst snd].
  destruct (assoc k riskFactors) as [row |] eqn:Hrow.
  - exfalso. destruct (key_choices k row Hrow) as (ch & Hch).
    destruct (Hall k ch Hch) as (l' & Hl' & Hc).
    destruct (choice_weight k l' ch Hch Hc) as (w & Hw').
    rewrite (same_key_same_label fs k l l' Hnd Hin Hl') in Hw. congruence.
  - apply lookup_unknown_key; [exact Hrow |].
    exact (Hother (k, l) Hin Hrow).
Qed.

(** The scoring step, for a request that passed validation and has no key
    named after a member of [Object.prototype], whatever the order of the
    keys and whatever further keys it carries: the step completes; five
    entries are scored; with [s] the sum of their weights in tenths, the
    riskScore is the number [2 s / 100], that is, the exact mean written
    with two decimals; and unless the exact mean is 0.4 or 0.7 the level is
    the one the exact mean gives. *)
Theorem assess_validated_request (clockId clockCreated : Z) (req : request) :
  validated (req_factors req) ->
  exists a s,
    assess builtinOwn clockId clockCreated req = Completed a
    /\ recognised (req_factors req) = (s, 5%Z)
    /\ riskScore a = (of_uint63 (of_Z (2 * s)) / 100)%float
    /\ (s <> 20%Z -> s <> 35%Z ->
        riskLevel a = level_as_specified (req_factors req)).
Proof.
  intros Hv.
  pose proof (validated_five _ Hv) as H5.
  destruct (forEach_recognised _ (validated_passes _ Hv) (mkTally 0 0 []))
    as (t & Hfe & Ht & Hc).
  cbn [totalRiskScore factorCount] in Ht, Hc.
  pose proof (average_valid (req_factors req) t Ht Hc) as Havg.
  assert (Hag : agrees (weightsOf (req_factors req)) = true).
  { apply (sweep_sound agrees 5 [] _ sweep_agrees (weightsOf_table _)).
    rewrite H5. constructor. }
  rewrite level_as_specified_weights, recognised_weights, H5.
  unfold Risk.assess. rewrite Hfe, Havg.
  destruct (levelOf (codeAverage (weightsOf (req_factors req))))
    as [level color] eqn:Hlv.
  eexists. exists (total (weightsOf (req_factors req))).
  split; [reflexivity |]. split; [reflexivity |].
  cbn [riskScore riskLevel].
  destruct (weightsOf (req_factors req)) as [| w ws] eqn:Hws;
    [discriminate H5 |].
  unfold agrees in Hag. fold (total (w :: ws)) in Hag. rewrite H5 in Hag.
  apply andb_prop in Hag. destruct Hag as [Hround Hlevel].
  destruct (nearestInteger (codeAverage (w :: ws) * 100)) as [k |] eqn:Hk;
    [| discriminate].
  apply andb_prop in Hround. destruct Hround as [Hround H3].
  apply andb_prop in Hround. destruct Hround as [H1 H2].
  apply Z.ltb_lt in H1. apply Z.leb_le in H2, H3.
  assert (Hk2 : k = (2 * total (w :: ws))%Z) by lia.
  split.
  - unfold Math_round. rewrite Hk.
    destruct (Z.eqb_spec k 0); [lia |].
    destruct (Z.ltb_spec k 0); [lia |]. rewrite Hk2. reflexivity.
  - intros H4 H7.
    destruct (Z.eqb_spec (total (w :: ws)) (4 * Z.of_nat 5)); [lia |].
    destruct (Z.eqb_spec (total (w :: ws)) (7 * Z.of_nat 5)); [lia |].
    cbn [orb] in Hlevel. rewrite Hlv in Hlevel. cbn [fst] in Hlevel.
    apply String.eqb_eq in Hlevel. exact Hlevel.
Qed.

(** Template and scoring agree: the assessment scores a (factor, label)
    pair as a table entry exactly when the template offers that label as an
    option of that factor, and then with the score and the description the
    template shows. *)
Theorem template_options_are_the_scored_entries (key label : string) (f : factor) :
  lookup builtinOwn key label = Entry f
  <-> exists tf o,
        In tf (template_factors getTemplate)
        /\ factor_id tf = key
        /\ In o (factor_options tf)
        /\ option_value o = label
        /\ option_score o = score f
        /\ option_description o = description f.
Proof.
  assert (Hkeys : List.NoDup (map fst riskFactors)).
  { cbn. repeat (constructor; [cbn; intuition discriminate |]). constructor. }
  assert (Hrows : forall k row, In (k, row) riskFactors ->
                                List.NoDup (map fst row)).
  { intros k row Hin. cbn in Hin.
    repeat (destruct Hin as [Hin | Hin]; [injection Hin as <- <-;
      cbn; repeat (constructor; [cbn; intuition discriminate |]); constructor |]).
    contradiction. }
  split.
  - unfold Risk.lookup.
    destruct (assoc key riskFactors) as [row |] eqn:Hrow.
    + destruct (assoc label row) as [f' |] eqn:Hf;
        [| destruct (inherited label); discriminate].
      intros [= <-].
      exists (mkTemplateFactor key (capitalizeWords false (underscoresToSpaces key))
                (map (fun choice : string * factor =>
                        let '(optionKey, f) := choice in
                        mkTemplateOption optionKey (capitalize optionKey)
                          (description f) (score f)) row)),
             (mkTemplateOption label (capitalize label) (description f') (score f')).
      split.
      { unfold getTemplate. cbn [template_factors]. apply in_map_iff.
        exists (key, row). split; [reflexivity | exact (assoc_In _ _ _ Hrow)]. }
      split; [reflexivity |]. split; [| auto].
      cbn [factor_options]. apply in_map_iff.
      exists (label, f'). split; [reflexivity | exact (assoc_In _ _ _ Hf)].
    + destruct (inherited key); [| discriminate].
      destruct (String.eqb key "__proto__").
      * destruct (inherited label && negb (String.eqb label "__proto__"));
          discriminate.
      * destruct (inherited label); [discriminate |].
        destruct (builtinOwn key label); discriminate.
  - intros (tf & o & Htf & Hid & Ho & Hval & Hsc & Hd).
    unfold getTemplate in Htf. cbn [template_factors] in Htf.
    apply in_map_iff in Htf. destruct Htf as ([k row] & <- & Hin).
    cbn [factor_id factor_options] in Hid, Ho. subst k.
    apply in_map_iff in Ho. destruct Ho as ([l f'] & <- & Hin').
    cbn [option_value option_score option_description] in Hval, Hsc, Hd. subst l.
    unfold Risk.lookup.
    rewrite (In_assoc key row riskFactors Hkeys Hin).
    rewrite (In_assoc label f' row (Hrows key row Hin) Hin').
    destruct f as [sf df], f' as [sf' df']. cbn in Hsc, Hd. subst. reflexivity.
Qed.

End Engine.

Lemma mildest_validated : validated mildest.
Proof.
  split; [| split].
  - cbn. repeat (constructor; [cbn; intuition discriminate |]). constructor.
  - intros key choices Hk. cbn in Hk.
    repeat (destruct Hk as [Hk | Hk]; [injection Hk as <- <-;
      eexists; split; [cbn; eauto 10 | cbn; eauto] |]).
    contradiction.
  - intros e He. cbn in He.
    repeat (destruct He as [<- | He]; [cbn; intros H; first [discriminate H | reflexivity] |]).
    contradiction.
Qed.

Definition noCases (_ _ : string) : caseFound := NoSuchCase.

Definition mildestBody : riskBody := mkBody None mildest None None.

Section Route.
Variable builtinOwn : string -> string -> truth.
Variable findCase : string -> string -> caseFound.

(** What the scoring step makes of a request. *)
Lemma assess_fields (clockId clockCreated : Z) (req : request) (a : assessment) :
  assess builtinOwn clockId clockCreated req = Completed a ->
  exists t,
    forEach builtinOwn (mkTally 0 0 []) (req_factors req) = Some t
    /\ id a = decimal clockId
    /\ createdAt a = clockCreated
    /\ userId a = req_userId req
    /\ caseId a = option_map fst (req_case req)
    /\ assessment_caseInfo a = option_map snd (req_case req)
    /\ riskScore a = (Math_round (averageRiskScore t * 100) / 100)%float
    /\ riskLevel a = fst (levelOf (averageRiskScore t))
    /\ riskColor a = snd (levelOf (averageRiskScore t))
    /\ factors a = assessmentDetails t
    /\ additionalFactors a = req_additionalFactors req
    /\ assessment_description a = req_description req
    /\ recommendations a = recommend (averageRiskScore t) (req_factors req).
Proof.
  unfold Risk.assess.
  destruct (forEach builtinOwn (mkTally 0 0 []) (req_factors req)) as [t |];
    [| discriminate].
  destruct (levelOf (averageRiskScore t)) as [level color] eqn:Hlevel.
  intros [= <-]. exists t. rewrite Hlevel. cbn. repeat split.
Qed.


(** C8, as the code has it.  Two runs of the handler on one body for one
    user, at any two readings of the clock and against any two states of
    the case store: when both complete, the assessments have the same [userId], [caseId],
    [riskScore], [riskLevel], [riskColor], per-factor breakdown,
    [additionalFactors], [description] and [recommendations]; [id] and
    [createdAt] copy the clock of each run, and [caseInfo] is what the
    store returned to each. *)
Theorem riskAssessment_scoring_deterministic (findCase' : string -> string -> caseFound)
    (clockId clockCreated clockId' clockCreated' : Z)
    (user : string) (b : riskBody) (a a' : assessment) :
  riskAssessment builtinOwn findCase clockId clockCreated user b = Assessed a ->
  riskAssessment builtinOwn findCase' clockId' clockCreated' user b
  = Assessed a' ->
  (userId a = userId a' /\ caseId a = caseId a'
   /\ riskScore a = riskScore a' /\ riskLevel a = riskLevel a'
   /\ riskColor a = riskColor a' /\ factors a = factors a'
   /\ additionalFactors a = additionalFactors a'
   /\ assessment_description a = assessment_description a'
   /\ recommendations a = recommendations a')
  /\ (id a = decimal clockId /\ createdAt a = clockCreated)
  /\ (id a' = decimal clockId' /\ createdAt a' = clockCreated').
Proof.
  assert (Hrun : forall find k k' x,
            riskAssessment builtinOwn find k k' user b = Assessed x ->
            exists found,
              option_map fst found = option_map fst (caseOf find user b)
              /\ assess builtinOwn k k'
                   (mkRequest user found (body_factors b)
                      (default [] (body_additionalFactors b))
                      (body_description b)) = Completed x).
  { intros find k k' x. unfold riskAssessment, scoreRequest.
    destruct (caseOf find user b) as [[cid [info | |]] |]; try discriminate.
    - destruct (assess _ _ _ _) as [y |] eqn:Hy; [| discriminate].
      intros [= <-]. exists (Some (cid, info)). auto.
    - destruct (assess _ _ _ _) as [y |] eqn:Hy; [| discriminate].
      intros [= <-]. exists None. auto. }
  assert (Hid : forall find,
            option_map fst (caseOf find user b)
            = match body_caseId b with
              | Some (String c rest) => Some (String c rest)
              | _ => None
              end).
  { intros find. unfold caseOf.
    destruct (body_caseId b) as [[| c rest] |]; reflexivity. }
  intros H1 H2.
  destruct (Hrun _ _ _ _ H1) as (f1 & Hf1 & Ha).
  destruct (Hrun _ _ _ _ H2) as (f2 & Hf2 & Ha').
  rewrite Hid in Hf1, Hf2.
  destruct (assess_fields _ _ _ _ Ha)
    as (t & Ht & Hi & Hc & Hu & Hcase & _ & Hs & Hl & Hcol & Hf & Had & Hd & Hr).
  destruct (assess_fields _ _ _ _ Ha')
    as (t' & Ht' & Hi' & Hc' & Hu' & Hcase' & _ & Hs' & Hl' & Hcol' & Hf' & Had'
        & Hd' & Hr').
  cbn [req_factors req_userId req_case req_additionalFactors req_description]
    in *.
  rewrite Ht in Ht'. injection Ht' as <-.
  repeat split; congruence.
Qed.
End Route.

(** A case as the store holds it on Monday, and the same case once it is
    closed. *)
Definition openCase (_ _ : string) : caseFound :=
  CaseDoc (mkCaseInfo "64b7f0c2a1d3e4f5a6b7c8d9" "Deposit dispute" "civil" "active").
Definition closedCase (_ _ : string) : caseFound :=
  CaseDoc (mkCaseInfo "64b7f0c2a1d3e4f5a6b7c8d9" "Deposit dispute" "civil" "closed").

Definition mildestForCase : riskBody :=
  mkBody (Some "64b7f0c2a1d3e4f5a6b7c8d9") mildest None None.


Lemma riskAssessment_scoring_deterministic_witness :
  exists a a',
    riskAssessment bareEngine openCase 1700000000000 1700000000000 "u1"
      mildestForCase = Assessed a
    /\ riskAssessment bareEngine closedCase 1700000001000 1700000001000 "u1"
         mildestForCase = Assessed a'
    /\ (userId a = userId a' /\ caseId a = caseId a'
        /\ riskScore a = riskScore a' /\ riskLevel a = riskLevel a'
        /\ riskColor a = riskColor a' /\ factors a = factors a'
        /\ additionalFactors a = additionalFactors a'
        /\ assessment_description a = assessment_description a'
        /\ recommendations a = recommendations a')
    /\ (id a = decimal 1700000000000 /\ createdAt a = 1700000000000%Z)
    /\ (id a' = decimal 1700000001000 /\ createdAt a' = 1700000001000%Z).
Proof.
  eexists. eexists.
  split; [vm_compute; reflexivity |].
  split; [vm_compute; reflexivity |].
  apply (riskAssessment_scoring_deterministic bareEngine openCase closedCase
           1700000000000 1700000000000 1700000001000 1700000001000 "u1"
           mildestForCase);
    vm_compute; reflexivity.
Defined.

(** Two runs on one body, a second apart, against one store: the replies
    differ. *)
Lemma riskAssessment_depends_on_clock :
  riskAssessment bareEngine openCase 1700000000000 1700000000000 "u1"
    mildestForCase
  <> riskAssessment bareEngine openCase 1700000001000 1700000001000 "u1"
       mildestForCase.
Proof.
  intros H.
  apply (f_equal (fun r => match r with
                           | Assessed a => createdAt a
                           | _ => 0%Z
                           end)) in H.
  vm_compute in H. discriminate H.
Qed.

Lemma assess_validated_request_witness :
  validated mildest
  /\ exists a s,
       assess bareEngine 1000 1000 (mkRequest "u1" None mildest [] None)
       = Completed a
       /\ recognised mildest = (s, 5%Z)
       /\ riskScore a = (of_uint63 (of_Z (2 * s)) / 100)%float
       /\ (s <> 20%Z -> s <> 35%Z -> riskLevel a = level_as_specified mildest).
Proof.
  split; [exact mildest_validated |].
  apply (assess_validated_request bareEngine 1000 1000
           (mkRequest "u1" None mildest [] None)).
  exact mildest_validated.
Defined.

End RiskRouteSpec.

(** ** Validated risk assessments: the advice threshold *)
Module RiskAdviceSpec.
Import Js Risk RiskSpec RiskRoute RiskRouteSpec.

(** The recognised entries of a mapping, each key with its weight in
    tenths, in arrival order. *)
Fixpoint weighted (fs : list (string * string)) : list (string * Z) :=
  match fs with
  | [] => []
  | e :: rest => match weight e with
                 | Some w => (fst e, w) :: weighted rest
                 | None => weighted rest
                 end
  end.

(** [check] holds of [done] followed by the weights of any [depth] further
    factors, each key outside [used] and taken once, with any of its
    labels. *)
Fixpoint sweepFactors (check : list Z -> bool) (depth : nat)
    (used : list string) (done : list Z) : bool :=
  match depth with
  | O => check done
  | S k =>
      forallb (fun row : string * list (string * Z) =>
                 mem (fst row) used
                 || forallb (fun choice : string * Z =>
                               sweepFactors check k (fst row :: used)
                                 (done ++ [ snd choice ])%list)
                            (snd row))
              tenths
  end.

(** For the weights of five factors: the total lies between 8 and 38
    tenths, and the computed average reaches 0.6 exactly when the total
    reaches 30 tenths. *)
Definition adviceAgrees (ws : list Z) : bool :=
  (8 <=? total ws)%Z && (total ws <=? 38)%Z
  && Bool.eqb (PrimFloat.leb 0.6 (codeAverage ws)) (30 <=? total ws)%Z.

Definition counsel : string := "Consider seeking experienced legal counsel".

Lemma weighted_weights (fs : list (string * string)) :
  map snd (weighted fs) = weightsOf fs.
Proof.
  induction fs as [| e fs IH]; [reflexivity |].
  cbn [weighted weightsOf]. destruct (weight e); cbn [map snd]; rewrite IH;
    reflexivity.
Qed.

Lemma weighted_keys (fs : list (string * string)) :
  map fst (weighted fs) = keysOf fs.
Proof.
  induction fs as [| e fs IH]; [reflexivity |].
  cbn [weighted keysOf]. destruct (weight e); cbn [map fst]; rewrite IH;
    reflexivity.
Qed.

Lemma weighted_table (fs : list (string * string)) :
  Forall (fun kw => exists row l, In (fst kw, row) tenths /\ In (l, snd kw) row)
         (weighted fs).
Proof.
  induction fs as [| [k l] fs IH]; [constructor |].
  cbn [weighted]. destruct (weight (k, l)) as [w |] eqn:Hw; [| exact IH].
  constructor; [| exact IH]. cbn [fst snd].
  unfold weight in Hw. cbn [fst snd] in Hw.
  destruct (assoc k tenths) as [row |] eqn:Hrow; [| discriminate].
  exists row, l. split; apply assoc_In; assumption.
Qed.

Lemma mem_In (s : string) (l : list string) : mem s l = true <-> In s l.
Proof.
  unfold mem. rewrite existsb_exists. split.
  - intros (x & Hx & He). apply String.eqb_eq in He. subst. exact Hx.
  - intros H. exists s. split; [exact H | apply String.eqb_refl].
Qed.

Lemma sweepFactors_sound (check : list Z -> bool) (depth : nat) :
  forall used done (kws : list (string * Z)),
    sweepFactors check depth used done = true ->
    length kws = depth ->
    List.NoDup (map fst kws) ->
    (forall k, In k (map fst kws) -> ~ In k used) ->
    Forall (fun kw => exists row l, In (fst kw, row) tenths /\ In (l, snd kw) row)
           kws ->
    check (done ++ map snd kws)%list = true.
Proof.
  induction depth as [| d IH]; intros used done kws Hs Hlen Hnd Hfresh Hall.
  - destruct kws; [| discriminate Hlen]. cbn [map]. rewrite app_nil_r. exact Hs.
  - destruct kws as [| [k w] rest]; [discriminate Hlen |].
    cbn [sweepFactors] in Hs. rewrite forallb_forall in Hs.
    apply Forall_cons_iff in Hall. destruct Hall as [(row & l & Hrow & Hl) Hall].
    cbn [fst snd] in Hrow, Hl.
    specialize (Hs (k, row) Hrow). cbn [fst snd] in Hs.
    apply orb_prop in Hs. destruct Hs as [Hused | Hs].
    + exfalso. apply (Hfresh k); [left; reflexivity |].
      apply mem_In. exact Hused.
    + rewrite forallb_forall in Hs. specialize (Hs (l, w) Hl). cbn [snd] in Hs.
      cbn [map fst snd] in Hnd |- *. apply List.NoDup_cons_iff in Hnd.
      destruct Hnd as [Hk Hnd].
      change (done ++ w :: map snd rest)%list
        with (done ++ [ w ] ++ map snd rest)%list.
      rewrite app_assoc.
      apply (IH (k :: used)); [exact Hs | | exact Hnd | | exact Hall].
      * cbn [length] in Hlen. lia.
      * intros k' Hk' [<- | Hu]; [contradiction |].
        apply (Hfresh k'); [right; exact Hk' | exact Hu].
Qed.

(** Whatever the five labels and the order of the five factors. *)
Lemma sweepFactors_advice : sweepFactors adviceAgrees 5 [] [] = true.
Proof. vm_compute. reflexivity. Qed.

Lemma counsel_advised (average : float) (fs : list (string * string)) :
  In counsel (recommend average fs) <-> PrimFloat.leb 0.6 average = true.
Proof.
  unfold recommend. rewrite !in_app_iff. split.
  - intros [H | [H | [H | H]]].
    + destruct (PrimFloat.leb 0.6 average); [reflexivity | destruct H].
    + destruct (factorIs fs "evidence_strength" "weak"); [| destruct H].
      cbn in H. unfold counsel in H. intuition discriminate.
    + destruct (factorIs fs "time_constraints" "urgent"); [| destruct H].
      cbn in H. unfold counsel in H. intuition discriminate.
    + destruct (factorIs fs "opponent_resources" "extensive"); [| destruct H].
      cbn in H. unfold counsel in H. intuition discriminate.
  - intros ->. left. left. reflexivity.
Qed.

Section Engine.
Variable builtinOwn : string -> string -> truth.

(** For a request that passed validation and has no key named after a
    member of [Object.prototype], whatever the order of its keys: the sum
    [s] of the five weights lies between 8 and 38 tenths (the score between
    0.16 and 0.76), and the advice to seek experienced counsel is given
    exactly when the exact mean [s / 50] is at least 0.6; the rounding of
    the floating-point sum never moves a request across that threshold. *)
Theorem assess_validated_advice (clockId clockCreated : Z) (req : request) :
  validated (req_factors req) ->
  exists a s,
    assess builtinOwn clockId clockCreated req = Completed a
    /\ recognised (req_factors req) = (s, 5%Z)
    /\ (8 <= s <= 38)%Z
    /\ (In counsel (recommendations a) <-> (30 <= s)%Z).
Proof.
  intros Hv.
  pose proof (validated_five _ Hv) as H5.
  destruct (forEach_recognised builtinOwn _ (validated_passes builtinOwn _ Hv)
              (mkTally 0 0 [])) as (t & Hfe & Ht & Hc).
  cbn [totalRiskScore factorCount] in Ht, Hc.
  pose proof (average_valid (req_factors req) t Ht Hc) as Havg.
  assert (Hag : adviceAgrees (weightsOf (req_factors req)) = true).
  { rewrite <- weighted_weights.
    apply (sweepFactors_sound adviceAgrees 5 [] [] (weighted (req_factors req))
             sweepFactors_advice).
    - rewrite <- (length_map snd), weighted_weights. exact H5.
    - rewrite weighted_keys. apply keysOf_NoDup. exact (proj1 Hv).
    - intros k _ [].
    - apply weighted_table. }
  rewrite recognised_weights, H5.
  unfold Risk.assess. rewrite Hfe, Havg.
  destruct (levelOf (codeAverage (weightsOf (req_factors req))))
    as [level color].
  eexists. exists (total (weightsOf (req_factors req))).
  split; [reflexivity |]. split; [reflexivity |].
  cbn [recommendations]. rewrite counsel_advised.
  unfold adviceAgrees in Hag.
  apply andb_prop in Hag. destruct Hag as [Hrange Hadvice].
  apply andb_prop in Hrange. destruct Hrange as [Hlo Hhi].
  apply Z.leb_le in Hlo, Hhi. split; [lia |].
  apply Bool.eqb_prop in Hadvice. rewrite Hadvice. apply Z.leb_le.
Qed.
End Engine.

Lemma assess_validated_advice_witness :
  exists a s,
    assess bareEngine 1000 1000 (mkRequest "u1" None mildest [] None) = Completed a
    /\ recognised mildest = (s, 5%Z)
    /\ (8 <= s <= 38)%Z
    /\ (In counsel (recommendations a) <-> (30 <= s)%Z).
Proof.
  apply (assess_validated_advice bareEngine 1000 1000
           (mkRequest "u1" None mildest [] None)).
  exact mildest_validated.
Defined.

End RiskAdviceSpec.

(** ** Resource search, catalogue and recommendations *)
Module ResourcesSpec.
Import Js Resources.

(** *** Insertion sort is an [Array.prototype.sort] *)

Lemma insertSorted_permutation {A : Type} (cmp : A -> A -> Z) (x : A) (l : list A) :
  Permutation (insertSorted cmp x l) (x :: l).
Proof.
  induction l as [| y rest IH]; [reflexivity |].
  cbn [insertSorted]. destruct (cmp x y <? 0)%Z; [reflexivity |].
  rewrite IH. apply perm_swap.
Qed.

Lemma insertionSort_fold {A : Type} (cmp : A -> A -> Z) (l sorted : list A) :
  Permutation (fold_left (fun sorted x => insertSorted cmp x sorted) l sorted)
              (sorted ++ l)%list.
Proof.
  revert sorted. induction l as [| x l IH]; intros sorted; cbn [fold_left].
  - rewrite app_nil_r. reflexivity.
  - rewrite IH, insertSorted_permutation.
    cbn [app]. apply Permutation_middle.
Qed.

Lemma insertionSort_permutation (A : Type) (cmp : A -> A -> Z) (l : list A) :
  Permutation (insertionSort cmp l) l.
Proof. unfold insertionSort. rewrite insertionSort_fold. reflexivity. Qed.

Lemma consistent_sub {A : Type} (cmp : A -> A -> Z) (l l' : list A) :
  (forall a, In a l' -> In a l) -> consistent cmp l -> consistent cmp l'.
Proof.
  intros Hsub (Hrefl & Hanti & Htrans). repeat split.
  - intros a Ha. apply Hrefl. auto.
  - apply Hanti; auto.
  - apply Hanti; auto.
  - intros a b c Ha Hb Hc. apply Htrans; auto.
Qed.

Lemma insertSorted_sorted {A : Type} (cmp : A -> A -> Z) (x : A) (l : list A) :
  consistent cmp (x :: l) ->
  StronglySorted (fun a b => (cmp a b <= 0)%Z) l ->
  StronglySorted (fun a b => (cmp a b <= 0)%Z) (insertSorted cmp x l).
Proof.
  induction l as [| y rest IH]; intros Hc Hs.
  - cbn. constructor; constructor.
  - cbn [insertSorted]. apply StronglySorted_inv in Hs. destruct Hs as [Hs Hy].
    destruct Hc as (Hrefl & Hanti & Htrans).
    destruct (Z.ltb_spec (cmp x y) 0) as [Hlt | Hge].
    + constructor; [constructor; assumption |].
      constructor; [lia |].
      rewrite List.Forall_forall in Hy |- *. intros z Hz.
      apply (Htrans x y z);
        [left; reflexivity | right; left; reflexivity | right; right; exact Hz
        | lia | exact (Hy z Hz)].
    + constructor.
      * apply IH; [| exact Hs].
        apply (consistent_sub cmp (x :: y :: rest));
          [cbn; tauto | repeat split; auto; apply Hanti; auto].
      * rewrite List.Forall_forall in Hy |- *. intros z Hz.
        apply (Permutation_in _ (insertSorted_permutation cmp x rest)) in Hz.
        destruct Hz as [<- | Hz]; [| exact (Hy z Hz)].
        pose proof (Hanti x y (or_introl eq_refl) (or_intror (or_introl eq_refl))).
        pose proof (Hanti y x (or_intror (or_introl eq_refl)) (or_introl eq_refl)).
        lia.
Qed.

Lemma insertionSort_sorted (A : Type) (cmp : A -> A -> Z) (l : list A) :
  consistent cmp l ->
  StronglySorted (fun a b => (cmp a b <= 0)%Z) (insertionSort cmp l).
Proof.
  unfold insertionSort. intros Hc.
  assert (H : forall sorted,
             consistent cmp (sorted ++ l)%list ->
             StronglySorted (fun a b => (cmp a b <= 0)%Z) sorted ->
             StronglySorted (fun a b => (cmp a b <= 0)%Z)
               (fold_left (fun sorted x => insertSorted cmp x sorted) l sorted)).
  { clear Hc. induction l as [| x l IH]; intros sorted Hc Hs; [exact Hs |].
    cbn [fold_left]. apply IH.
    - apply (consistent_sub cmp (sorted ++ x :: l)%list); [| exact Hc].
      intros a Ha. apply in_app_iff in Ha. apply in_app_iff.
      destruct Ha as [Ha | Ha]; [| right; right; exact Ha].
      apply (Permutation_in _ (insertSorted_permutation cmp x sorted)) in Ha.
      destruct Ha as [<- | Ha]; [right; left; reflexivity | left; exact Ha].
    - apply insertSorted_sorted; [| exact Hs].
      apply (consistent_sub cmp (sorted ++ x :: l)%list); [| exact Hc].
      intros a Ha. apply in_app_iff.
      destruct Ha as [<- | Ha]; [right; left; reflexivity | left; exact Ha]. }
  apply H; [exact Hc | constructor].
Qed.

#[export] Instance insertionEngine : ArraySort :=
  {| sortWith := @insertionSort;
     sortWith_permutation := insertionSort_permutation;
     sortWith_sorted := insertionSort_sorted |}.

(** A lower-casing that agrees with the engine's on ASCII text, to run the
    search on ASCII queries. *)
#[export] Instance asciiCase : StringCase :=
  {| toLowerCase := lowerAscii;
     toLowerCase_ascii := fun s _ => eq_refl |}.

(** *** Lists cut into pages *)

Lemma firstn_plus {A : Type} (a b : nat) (l : list A) :
  firstn (a + b) l = (firstn a l ++ firstn b (skipn a l))%list.
Proof.
  revert l. induction a as [| a IH]; intros l; [reflexivity |].
  destruct l as [| x l]; cbn [Nat.add firstn skipn app].
  - rewrite firstn_nil. reflexivity.
  - rewrite IH. reflexivity.
Qed.

Lemma firstn_min {A : Type} (a : nat) (l : list A) :
  firstn (Nat.min a (length l)) l = firstn a l.
Proof.
  destruct (Nat.le_gt_cases a (length l)) as [H | H].
  - rewrite Nat.min_l by exact H. reflexivity.
  - rewrite Nat.min_r by lia. rewrite firstn_all, firstn_all2 by lia. reflexivity.
Qed.

(** A slice between two non-negative bounds. *)
Lemma slice_window {A : Type} (start size : Z) (l : list A) :
  (0 <= start)%Z -> (0 <= size)%Z ->
  slice start (start + size) l
  = firstn (Z.to_nat size) (skipn (Z.to_nat start) l).
Proof.
  intros Hs Hn. unfold slice, relativeIndex.
  destruct (Z.ltb_spec start 0) as [? | _]; [lia |].
  destruct (Z.ltb_spec (start + size) 0) as [? | _]; [lia |].
  destruct (Z.le_gt_cases (Z.of_nat (length l)) start) as [Hout | Hin].
  - rewrite (Z.min_r start) by exact Hout. rewrite Nat2Z.id.
    rewrite skipn_all, (skipn_all2 l) by lia.
    rewrite !firstn_nil. reflexivity.
  - rewrite (Z.min_l start) by lia.
    rewrite <- (firstn_min (Z.to_nat size)). f_equal.
    rewrite length_skipn. lia.
Qed.

Lemma pages_concat {A : Type} (size : nat) (l : list A) (pages : nat) :
  concat (map (fun i => firstn size (skipn (i * size) l)) (seq 0 pages))
  = firstn (pages * size) l.
Proof.
  induction pages as [| n IH]; [reflexivity |].
  rewrite seq_S, map_app, concat_app, IH. cbn [map concat Nat.add].
  rewrite app_nil_r. rewrite <- firstn_plus. f_equal. lia.
Qed.

Lemma ceil_div_bounds (a b : Z) :
  (0 < b)%Z ->
  ((RateLimit.ceil_div a b - 1) * b < a <= RateLimit.ceil_div a b * b)%Z.
Proof.
  intros Hb. unfold RateLimit.ceil_div. Z.div_mod_to_equations. nia.
Qed.

(** *** Substrings *)



(** On ASCII text the search compares ASCII lower-casings. *)
Lemma matchesText_ascii {platform : StringCase} (text : string) (r : resource) :
  isAscii text = true -> isAscii (title r) = true ->
  isAscii (description r) = true -> isAscii (category r) = true ->
  matchesText (toLowerCase text) r
  = includes (lowerAscii (title r)) (lowerAscii text)
    || includes (lowerAscii (description r)) (lowerAscii text)
    || includes (lowerAscii (category r)) (lowerAscii text).
Proof.
  intros Ht H1 H2 H3. unfold matchesText.
  rewrite !toLowerCase_ascii by assumption. reflexivity.
Qed.

(** *** Filters *)

(** A condition of the query, absent or empty conditions holding of
    everything. *)
Definition wanted (condition : option string) (test : string -> bool) : bool :=
  match given condition with
  | Some v => test v
  | None => true
  end.

(** The resources a query asks for. *)
Definition matches {platform : StringCase} (qu : query) (r : resource) : bool :=
  wanted (q qu) (fun v => matchesText (toLowerCase v) r)
  && wanted (query_category qu) (String.eqb (category r))
  && wanted (query_type qu) (String.eqb (type r))
  && wanted (query_jurisdiction qu) (String.eqb (jurisdiction r)).

(** The same query, asking for page [p]. *)
Definition atPage (p : Z) (qu : query) : query :=
  mkQuery (q qu) (query_category qu) (query_type qu) (query_jurisdiction qu)
          (Some p) (limit qu) (sortBy qu) (sortOrder qu).

(** The page numbers [1 .. pages]. *)
Definition pageNumbers (pages : Z) : list Z :=
  map (fun i => Z.of_nat (S i)) (seq 0 (Z.to_nat pages)).

Definition maxSafeInteger : Z := 9007199254740991.

(** What validation leaves of [page] and [limit]: integers in range (and,
    for the arithmetic to be exact, a page number that a JavaScript number
    holds exactly). *)
Definition validQuery (qu : query) : Prop :=
  (1 <= default 1 (page qu) <= maxSafeInteger)%Z
  /\ (1 <= default 10 (limit qu) <= 50)%Z.

Definition byCategory (c : string) : query :=
  mkQuery None (Some c) None None None None None None.

Definition sampleQuery : query :=
  mkQuery (Some "GUIDE") None None None (Some 2%Z) (Some 2%Z) None (Some "asc").

Lemma filter_true {A : Type} (l : list A) : List.filter (fun _ => true) l = l.
Proof. induction l as [| x l IH]; cbn; [| rewrite IH]; reflexivity. Qed.

Lemma filter_filter {A : Type} (f g : A -> bool) (l : list A) :
  List.filter g (List.filter f l) = List.filter (fun x => f x && g x) l.
Proof.
  induction l as [| x l IH]; [reflexivity |].
  cbn [List.filter]. destruct (f x); cbn [List.filter andb]; [| exact IH].
  destruct (g x); rewrite IH; reflexivity.
Qed.

Lemma filterBy_wanted (condition : option string)
    (keep : string -> resource -> bool) (l : list resource) :
  filterBy condition keep l
  = List.filter (fun r => wanted condition (fun v => keep v r)) l.
Proof.
  unfold filterBy, wanted. destruct (given condition); [reflexivity |].
  rewrite filter_true. reflexivity.
Qed.

Lemma filter_length_pos {A : Type} (f : A -> bool) (l : list A) :
  (0 < length (List.filter f l))%nat <-> exists x, In x l /\ f x = true.
Proof.
  split.
  - destruct (List.filter f l) as [| x rest] eqn:H; [cbn; lia |].
    intros _. exists x. apply filter_In. rewrite H. left. reflexivity.
  - intros (x & Hx). apply filter_In in Hx.
    destruct (List.filter f l); [destruct Hx | cbn; lia].
Qed.

Lemma distinct_In (x : string) (l : list string) :
  In x (distinct l) <-> In x l.
Proof.
  induction l as [| v l IH]; [reflexivity |].
  cbn [distinct In]. rewrite filter_In, IH.
  destruct (String.eqb_spec x v) as [-> | Hne]; cbn; [tauto |].
  split; [tauto |]. intros [H | H]; [congruence | tauto].
Qed.

Lemma distinct_NoDup (l : list string) : List.NoDup (distinct l).
Proof.
  induction l as [| v l IH]; [constructor |].
  cbn [distinct]. constructor.
  - rewrite filter_In, String.eqb_refl. cbn. intros [_ H]. discriminate H.
  - apply List.NoDup_filter. exact IH.
Qed.

Section Search.
Context {engine : ArraySort} {platform : StringCase}.
Variable allResources : list resource.

Lemma filteredResources_permutation (qu : query) :
  Permutation (filteredResources allResources qu)
              (List.filter (matches qu) allResources).
Proof.
  unfold filteredResources. rewrite sortWith_permutation.
  rewrite !filterBy_wanted, !filter_filter.
  rewrite (List.filter_ext _ (matches qu)); [reflexivity |].
  intros r. unfold matches. rewrite !andb_assoc. reflexivity.
Qed.

Lemma search_page (qu : query) :
  (1 <= default 1 (page qu))%Z -> (1 <= default 10 (limit qu))%Z ->
  resources (search allResources qu)
  = firstn (Z.to_nat (default 10%Z (limit qu)))
      (skipn ((Z.to_nat (default 1%Z (page qu)) - 1) * Z.to_nat (default 10%Z (limit qu)))
             (filteredResources allResources qu)).
Proof.
  intros Hp Hl. unfold search. cbn [resources].
  rewrite slice_window; [| nia | lia]. do 2 f_equal.
  rewrite Z2Nat.inj_mul, Z2Nat.inj_sub by lia. reflexivity.
Qed.

Lemma search_page_count (qu : query) :
  (1 <= default 10 (limit qu))%Z ->
  let pages := total (result_pagination (search allResources qu)) in
  let size := default 10%Z (limit qu) in
  ((pages - 1) * size < Z.of_nat (length (filteredResources allResources qu))
   <= pages * size)%Z.
Proof.
  intros Hl pages size. subst pages. unfold search.
  cbn [result_pagination total]. apply ceil_div_bounds. lia.
Qed.

(** The pages of a search: [totalRecords] counts the resources the query
    asks for, whatever the page; [total] is the least number of pages of
    [limit] resources that holds them all; the page returned holds [limit]
    resources as long as that many are left after the pages before it, the
    rest on the last page, none beyond; [count] is its length. *)
Theorem search_pagination (qu : query) :
  validQuery qu ->
  let result := search allResources qu in
  let pages := result_pagination result in
  let n := Z.of_nat (length (List.filter (matches qu) allResources)) in
  let size := default 10%Z (limit qu) in
  totalRecords pages = n
  /\ ((total pages - 1) * size < n <= total pages * size)%Z
  /\ current pages = default 1%Z (page qu)
  /\ count pages = Z.of_nat (length (resources result))
  /\ count pages = Z.max 0 (Z.min size (n - (current pages - 1) * size)).
Proof.
  intros Hv result pages n size.
  pose proof (Permutation_length (filteredResources_permutation qu)) as Hlen.
  destruct Hv as [Hp Hl].
  pose proof (search_page qu (proj1 Hp) (proj1 Hl)) as Hpage.
  fold result in Hpage. fold size in Hl, Hpage.
  assert (Hn : totalRecords pages = n).
  { subst pages result n. unfold search. cbn [result_pagination totalRecords].
    rewrite Hlen. reflexivity. }
  split; [exact Hn |]. split.
  { pose proof (search_page_count qu (proj1 Hl)) as Hc. cbv zeta in Hc.
    rewrite Hlen in Hc. exact Hc. }
  split; [reflexivity |]. split; [reflexivity |].
  change (count pages) with (Z.of_nat (length (resources result))).
  change (current pages) with (default 1%Z (page qu)).
  rewrite Hpage, length_firstn, length_skipn, Hlen. fold n.
  subst n. nia.
Qed.

(** Taken together, the pages [1 .. total] of a search hold the resources
    the query asks for, each one once for each time the table holds it. *)
Theorem search_pages_cover (qu : query) :
  validQuery qu ->
  Permutation
    (concat (map (fun p => resources (search allResources (atPage p qu)))
                 (pageNumbers (total (result_pagination (search allResources qu))))))
    (List.filter (matches qu) allResources).
Proof.
  intros Hv. rewrite <- filteredResources_permutation.
  destruct Hv as [Hp Hl].
  pose proof (search_page_count qu (proj1 Hl)) as Hceil. cbv zeta in Hceil.
  set (pages := total (result_pagination (search allResources qu))) in *.
  set (size := default 10%Z (limit qu)) in *.
  unfold pageNumbers. rewrite map_map.
  rewrite (map_ext_in _ (fun i => firstn (Z.to_nat size)
             (skipn (i * Z.to_nat size) (filteredResources allResources qu)))).
  - rewrite pages_concat, firstn_all2; [reflexivity |].
    assert (0 <= pages)%Z by nia.
    apply Nat2Z.inj_le. rewrite Nat2Z.inj_mul, !Z2Nat.id; lia.
  - intros i Hi. apply in_seq in Hi.
    rewrite search_page;
      [| change (1 <= Z.of_nat (S i))%Z; lia | exact (proj1 Hl)].
    change (firstn (Z.to_nat size)
              (skipn ((Z.to_nat (Z.of_nat (S i)) - 1) * Z.to_nat size)
                 (filteredResources allResources qu))
            = firstn (Z.to_nat size)
                (skipn (i * Z.to_nat size) (filteredResources allResources qu))).
    replace (Z.to_nat (Z.of_nat (S i)) - 1)%nat with i by lia. reflexivity.
Qed.


(** The catalogue and the search agree: a category is listed by
    [/categories] exactly when a search for it finds something; and it is
    listed once. *)
Theorem categories_are_the_searchable_ones (c : string) :
  c <> "" ->
  List.NoDup (categories (getCategories allResources))
  /\ (In c (categories (getCategories allResources))
      <-> (0 < totalRecords (result_pagination
                               (search allResources (byCategory c))))%Z).
Proof.
  intros Hc. unfold getCategories. cbn [categories].
  split; [apply distinct_NoDup |].
  rewrite distinct_In. unfold search. cbn [result_pagination totalRecords].
  rewrite (Permutation_length (filteredResources_permutation (byCategory c))).
  change 0%Z with (Z.of_nat 0). rewrite <- Nat2Z.inj_lt, filter_length_pos.
  rewrite in_map_iff.
  assert (Hm : forall r, matches (byCategory c) r = String.eqb (category r) c).
  { intros r. unfold matches, byCategory, wanted. cbn [q query_category
      query_type query_jurisdiction given].
    destruct c; [contradiction |]. cbn [andb]. rewrite !andb_true_r. reflexivity. }
  split.
  - intros (r & <- & Hin). exists r. rewrite Hm, String.eqb_refl. auto.
  - intros (r & Hin & Hr). rewrite Hm in Hr. apply String.eqb_eq in Hr. eauto.
Qed.

End Search.

(** *** The order of search results *)

(** The comparator of [/search] is no consistent comparison function on
    any list that holds a resource (it answers 1 or -1 for a resource and
    itself), whatever [sortBy] and [sortOrder] are: the language leaves the
    order of the sorted list to the engine, and only the fact that sorting
    permutes the list can be relied on. *)
Theorem searchOrder_not_consistent (sortBy sortOrder : string)
    (l : list resource) (r : resource) :
  In r l -> ~ consistent (searchOrder sortBy sortOrder) l.
Proof.
  intros Hin (Hrefl & _). specialize (Hrefl r Hin). revert Hrefl.
  unfold searchOrder. cbv zeta.
  destruct (String.eqb sortOrder "desc");
    destruct (greater (field sortBy r) (field sortBy r)); discriminate.
Qed.

(** *** Recommendations *)

(** [consistent], decided on a given list. *)
Definition consistentb {A : Type} (cmp : A -> A -> Z) (l : list A) : bool :=
  forallb (fun a => (cmp a a =? 0)%Z) l
  && forallb (fun a => forallb (fun b =>
       Bool.eqb (cmp a b <? 0)%Z (0 <? cmp b a)%Z) l) l
  && forallb (fun a => forallb (fun b => forallb (fun c =>
       implb ((cmp a b <=? 0)%Z && (cmp b c <=? 0)%Z) (cmp a c <=? 0)%Z) l) l) l.

(** Of two resources of the list, the one [byRelevance] does not put
    second has the score that is not the smaller. *)
Definition descendingb (l : list resource) : bool :=
  forallb (fun a => forallb (fun b =>
    implb (byRelevance a b <=? 0)%Z
          (PrimFloat.leb (relevanceScore b) (relevanceScore a))) l) l.

Definition civilCase : caseDoc :=
  mkCaseDoc "64b7f0c2a1d3e4f5a6b7c8d9" "Deposit dispute" "civil" "medium".

Lemma consistentb_sound {A : Type} (cmp : A -> A -> Z) (l : list A) :
  consistentb cmp l = true -> consistent cmp l.
Proof.
  unfold consistentb. intros H.
  apply andb_prop in H. destruct H as [H Htrans].
  apply andb_prop in H. destruct H as [Hrefl Hanti].
  rewrite forallb_forall in Hrefl, Hanti, Htrans.
  split; [| split].
  - intros a Ha. apply Z.eqb_eq. exact (Hrefl a Ha).
  - intros a b Ha Hb. specialize (Hanti a Ha).
    rewrite forallb_forall in Hanti. specialize (Hanti b Hb).
    apply Bool.eqb_prop in Hanti.
    rewrite <- Z.ltb_lt, Hanti, Z.ltb_lt. reflexivity.
  - intros a b c Ha Hb Hc Hab Hbc. specialize (Htrans a Ha).
    rewrite forallb_forall in Htrans. specialize (Htrans b Hb).
    rewrite forallb_forall in Htrans. specialize (Htrans c Hc).
    apply Z.leb_le in Hab, Hbc. rewrite Hab, Hbc in Htrans.
    apply Z.leb_le. exact Htrans.
Qed.

Lemma byRelevance_consistent : consistent byRelevance mockLegalResources.
Proof. apply consistentb_sound. vm_compute. reflexivity. Qed.

Lemma byRelevance_descending (a b : resource) :
  In a mockLegalResources -> In b mockLegalResources ->
  (byRelevance a b <= 0)%Z ->
  PrimFloat.leb (relevanceScore b) (relevanceScore a) = true.
Proof.
  assert (H : descendingb mockLegalResources = true) by (vm_compute; reflexivity).
  unfold descendingb in H. rewrite forallb_forall in H.
  intros Ha Hb Hab. specialize (H a Ha). rewrite forallb_forall in H.
  specialize (H b Hb). apply Z.leb_le in Hab. rewrite Hab in H. exact H.
Qed.

Lemma StronglySorted_weaken {A : Type} (R R' : A -> A -> Prop) (l : list A) :
  (forall a b, In a l -> In b l -> R a b -> R' a b) ->
  StronglySorted R l -> StronglySorted R' l.
Proof.
  intros Himp Hs. induction Hs as [| x l Hs IH Hx]; [constructor |].
  constructor.
  - apply IH. intros a b Ha Hb. apply Himp; right; assumption.
  - rewrite List.Forall_forall in Hx |- *. intros b Hb.
    apply Himp; [left; reflexivity | right; exact Hb | exact (Hx b Hb)].
Qed.

Lemma slice_short {A : Type} (l : list A) :
  (length l <= 10)%nat -> slice 0 10 l = l.
Proof.
  intros H. change (slice 0 10 l) with (slice 0 (0 + 10) l).
  rewrite (slice_window 0 10 l) by lia.
  change (skipn (Z.to_nat 0) l) with l. apply firstn_all2.
  change (Z.to_nat 10) with 10%nat. exact H.
Qed.

Lemma filter_length_bound {A : Type} (f : A -> bool) (l : list A) :
  (length (List.filter f l) <= length l)%nat.
Proof.
  induction l as [| x l IH]; [constructor |].
  cbn [List.filter]. destruct (f x); cbn [length]; lia.
Qed.

Section Recommendations.
Context {engine : ArraySort}.

(** For a case of the user whose type is no name of [Object.prototype]
    (the schema's case types are none): the recommended resources are the
    resources of the table whose category is one of those mapped to the
    case type ([general] for a type without mapping), each one once, the
    higher relevance score first; [count] is their number. *)
Theorem recommendations_for_case (c : caseDoc) :
  inherited (caseType c) = false ->
  exists categories r,
    relevantCategories (caseType c) = Some categories
    /\ (assoc (caseType c) categoryMapping = None -> categories = [ "general" ])
    /\ recommendations mockLegalResources (CaseFound c) = Recommended r
    /\ Permutation (recommended r)
         (List.filter (fun x => mem (category x) categories) mockLegalResources)
    /\ StronglySorted
         (fun a b => PrimFloat.leb (relevanceScore b) (relevanceScore a) = true)
         (recommended r)
    /\ recommended_count r = Z.of_nat (length (recommended r)).
Proof.
  intros Hinh. unfold recommendations, relevantCategories. rewrite Hinh.
  set (categories := match assoc (caseType c) categoryMapping with
                     | Some l => l
                     | None => [ "general" ]
                     end).
  exists categories. eexists. split; [| split; [| split]].
  - subst categories. destruct (assoc (caseType c) categoryMapping); reflexivity.
  - intros H. subst categories. rewrite H. reflexivity.
  - subst categories.
    destruct (assoc (caseType c) categoryMapping); reflexivity.
  - cbn [recommended recommended_count].
    set (wanted := List.filter (fun x => mem (category x) categories)
                     mockLegalResources).
    assert (Hshort : slice 0 10 (sortWith byRelevance wanted)
                     = sortWith byRelevance wanted).
    { apply slice_short.
      rewrite (Permutation_length (sortWith_permutation _ byRelevance wanted)).
      subst wanted.
      pose proof (filter_length_bound
                    (fun x => mem (category x) categories) mockLegalResources) as H.
      cbn [length mockLegalResources] in H. lia. }
    assert (Hsub : forall a, In a (sortWith byRelevance wanted) ->
                             In a mockLegalResources).
    { intros a Ha.
      apply (Permutation_in _ (sortWith_permutation _ byRelevance wanted)) in Ha.
      subst wanted. apply filter_In in Ha. tauto. }
    rewrite Hshort. split; [apply sortWith_permutation |]. split; [| reflexivity].
    apply (StronglySorted_weaken (fun a b => (byRelevance a b <= 0)%Z)).
    + intros a b Ha Hb. apply byRelevance_descending; auto.
    + apply sortWith_sorted.
      apply (consistent_sub byRelevance mockLegalResources);
        [| exact byRelevance_consistent].
      intros a Ha. subst wanted. apply filter_In in Ha. tauto.
Qed.

End Recommendations.

(** *** Instances *)

Lemma search_pagination_witness :
  let result := search mockLegalResources sampleQuery in
  let pages := result_pagination result in
  let n := Z.of_nat (length (List.filter (matches sampleQuery) mockLegalResources)) in
  let size := default 10%Z (limit sampleQuery) in
  totalRecords pages = n
  /\ ((total pages - 1) * size < n <= total pages * size)%Z
  /\ current pages = default 1%Z (page sampleQuery)
  /\ count pages = Z.of_nat (length (resources result))
  /\ count pages = Z.max 0 (Z.min size (n - (current pages - 1) * size)).
Proof.
  apply (search_pagination mockLegalResources sampleQuery).
  unfold validQuery, maxSafeInteger. cbn. lia.
Defined.

Lemma search_pages_cover_witness :
  Permutation
    (concat (map (fun p => resources (search mockLegalResources (atPage p sampleQuery)))
                 (pageNumbers (total (result_pagination
                                        (search mockLegalResources sampleQuery))))))
    (List.filter (matches sampleQuery) mockLegalResources).
Proof.
  apply (search_pages_cover mockLegalResources sampleQuery).
  unfold validQuery, maxSafeInteger. cbn. lia.
Defined.

Lemma categories_are_the_searchable_ones_witness :
  List.NoDup (categories (getCategories mockLegalResources))
  /\ (In "family" (categories (getCategories mockLegalResources))
      <-> (0 < totalRecords (result_pagination
                               (search mockLegalResources (byCategory "family"))))%Z).
Proof.
  apply (categories_are_the_searchable_ones mockLegalResources "family").
  discriminate.
Defined.

Lemma searchOrder_not_consistent_witness :
  ~ consistent (searchOrder "relevanceScore" "desc") mockLegalResources.
Proof.
  apply (searchOrder_not_consistent "relevanceScore" "desc" mockLegalResources
           (hd (mkResource "" "" "" "" "" "" "" 0 "") mockLegalResources)).
  left. reflexivity.
Defined.

Lemma recommendations_for_case_witness :
  exists categories r,
    relevantCategories (caseType civilCase) = Some categories
    /\ (assoc (caseType civilCase) categoryMapping = None -> categories = [ "general" ])
    /\ recommendations mockLegalResources (CaseFound civilCase) = Recommended r
    /\ Permutation (recommended r)
         (List.filter (fun x => mem (category x) categories) mockLegalResources)
    /\ StronglySorted
         (fun a b => PrimFloat.leb (relevanceScore b) (relevanceScore a) = true)
         (recommended r)
    /\ recommended_count r = Z.of_nat (length (recommended r)).
Proof.
  apply (recommendations_for_case civilCase). reflexivity.
Defined.

End ResourcesSpec.

(** ** Login and password change *)
Module AccountsSpec.
Import Js Auth Accounts AuthSpec.

(** A store with one account, protected by a password. *)
Definition alice : account :=
  mkAccount (mkUser "64b7f0c2a1d3e4f5a6b7c8d9" true "user" "free")
            "alice" None (Some "$2a$10$storedhash").

Definition oneAccount (name : string) : found :=
  if String.eqb name "alice" then Account alice else NoAccount.
Definition noEmails (_ : string) : found := NoAccount.
Definition sampleCompare (candidate hash : string) : option bool :=
  Some (String.eqb candidate "correct horse").
Definition alwaysSaves (_ : account) : bool := true.
Definition sampleSign (userId : string) : option string := Some ("jwt." ++ userId).
Definition sampleDecode (token : string) : verified :=
  if String.eqb token "jwt.64b7f0c2a1d3e4f5a6b7c8d9"
  then Decoded (Some "64b7f0c2a1d3e4f5a6b7c8d9")
  else VerifyThrows "JsonWebTokenError".
Definition oneUser (uid : option string) : lookup :=
  match uid with
  | Some "64b7f0c2a1d3e4f5a6b7c8d9" => Found (account_user alice)
  | _ => NotFound
  end.
Definition aliceLogin : credentials :=
  mkCredentials (Some "alice") None (Some "correct horse").

Lemma truthy_some (v : option string) :
  truthy v = true <-> exists c rest, v = Some (String c rest).
Proof.
  destruct v as [[| c rest] |]; cbn; split; try discriminate; eauto.
  - intros (c & rest & H). discriminate H.
  - intros (c & rest & H). discriminate H.
Qed.

Section Verification.
Variable findByProfileName : string -> found.
Variable findByEmail : string -> found.
Variable bcryptCompare : string -> string -> option bool.
Variable save : account -> bool.
Variable jwtSign : string -> option string.

Abbreviation login :=
  (login findByProfileName findByEmail bcryptCompare save jwtSign).

(** What a successful login went through. *)
Lemma login_success (body : credentials) (token : string) (a : account) :
  login body = LoggedIn token a ->
  findUser findByProfileName findByEmail body = Some (Account a)
  /\ isActive (account_user a) = true
  /\ checkPassword bcryptCompare a (login_password body) = Some true
  /\ save a = true
  /\ jwtSign (_id (account_user a)) = Some token.
Proof.
  unfold Accounts.login, generateToken.
  destruct (findUser _ _ body) as [[a' | |] |]; try discriminate.
  destruct (isActive (account_user a')) eqn:Hact; [| discriminate].
  cbn [negb].
  destruct (checkPassword bcryptCompare a' (login_password body))
    as [[|] |] eqn:Hcheck; try discriminate.
  destruct (save a') eqn:Hsave; [| discriminate].
  destruct (jwtSign (_id (account_user a'))) as [t |] eqn:Hsign;
    [| discriminate].
  intros [= <- <-]. auto.
Qed.




Section RoundTrip.
Variable jwtVerify : string -> verified.
Variable findById : option string -> lookup.

(** Login and authentication fit together: when the verifier decodes the
    token to the id it was signed for and the store finds the account's
    user under that id, the header [Bearer <token>] built from the token a
    login returned is authenticated as that user. *)
Theorem login_token_authenticates (body : credentials) (token : string)
    (a : account) :
  login body = LoggedIn token a ->
  token <> "" ->
  (forall c, In c (list_ascii_of_string token) -> c <> " "%char) ->
  jwtVerify token = Decoded (Some (_id (account_user a))) ->
  findById (Some (_id (account_user a))) = Found (account_user a) ->
  authenticateToken jwtVerify findById (Some ("Bearer " ++ token))
  = Attached (account_user a).
Proof.
  intros Hlogin Hne Hword Hverify Hfind.
  destruct (login_success body token a Hlogin) as (_ & Hactive & _).
  unfold authenticateToken.
  rewrite (bearerToken_bearer token Hne Hword), Hverify, Hfind, Hactive.
  reflexivity.
Qed.

End RoundTrip.


End Verification.



Lemma login_token_authenticates_witness :
  authenticateToken sampleDecode oneUser
    (Some ("Bearer " ++ "jwt.64b7f0c2a1d3e4f5a6b7c8d9"))
  = Attached (account_user alice).
Proof.
  apply (login_token_authenticates oneAccount noEmails sampleCompare alwaysSaves
           sampleSign sampleDecode oneUser aliceLogin
           "jwt.64b7f0c2a1d3e4f5a6b7c8d9" alice).
  - reflexivity.
  - discriminate.
  - intros c Hc. cbn in Hc.
    repeat (destruct Hc as [<- | Hc]; [discriminate |]). contradiction.
  - reflexivity.
  - reflexivity.
Defined.

End AccountsSpec.
